(** * raspberry_pi_buttons.py: the physical button controller

    A shallow embedding of [PhysicalButtonController] and of the script's
    entry point.  The controller is a Python object with mutable attributes;
    its methods read the wall clock, talk to the Flask application over HTTP,
    drive the GPIO library and print.  All of this is threaded through a
    small monad [M] over a [world]:

    - what the program reads from outside (clock readings, replies of the
      HTTP server, interrupts of [time.sleep], failures of GPIO calls) comes
      from oracles in the world, consumed call by call;
    - what the program does to the outside (printed lines, HTTP requests,
      sleeps, GPIO calls) is the list of [event]s a computation emits;
    - Python exceptions are the [Raises] outcome, handled by [try_except]
      and [try_finally]; they arise where the oracles say so (an HTTP
      request, a sleep, a GPIO call) and on reading an attribute that was
      never assigned.

    Clock readings are seconds since the epoch.  The source holds them in
    binary64 floats; here they are exact rationals ([Q]), and [0.3] is
    [3 # 10]: subtraction and comparison do not round.  What [time.time()]
    can return is a binary fraction, m / 2^k ([binary_fraction]); where a
    property depends on it, it is a hypothesis on the clock
    ([binary_clock]). *)

From Stdlib Require Import ZArith QArith List String Ascii Bool Lia Lqa.
From Stdlib Require Import DecimalString DecimalPos DecimalZ.
Import ListNotations.

Local Open Scope string_scope.
Local Open Scope Z_scope.

(** ** Module constants *)

Definition BUTTON_1_PIN : Z := 18.
Definition BUTTON_2_PIN : Z := 19.
Definition FLASK_APP_URL : string := "http://144.178.100.238:65500".

(** ** Exceptions, replies, events *)

(** The exception classes the handlers of the script tell apart:
    [except requests.exceptions.RequestException] in [send_button_press],
    [except KeyboardInterrupt] in [run], and the bare [except:] of
    [check_connection], which takes everything. *)
Inductive exn : Type :=
| RequestException (description : string)
| KeyboardInterrupt
| OtherException (name : string).

Definition is_RequestException (e : exn) : bool :=
  match e with RequestException _ => true | _ => false end.

Definition is_KeyboardInterrupt (e : exn) : bool :=
  match e with KeyboardInterrupt => true | _ => false end.

(** [str(e)] as interpolated in an f-string. *)
Definition str_exn (e : exn) : string :=
  match e with
  | RequestException d => d
  | KeyboardInterrupt => ""
  | OtherException n => n
  end.

(** What [requests.post] / [requests.get] come back with. *)
Inductive http_reply : Type :=
| Response (status_code : Z)
| Failure (e : exn).

Inductive json : Type :=
| JInt (n : Z)
| JFloat (x : Q).

(** Calls into [RPi.GPIO]. *)
Inductive gpio_call : Type :=
| Setmode_BCM
| Setwarnings (flag : bool)
| Setup_IN_PUD_DOWN (pin : Z)
| Add_event_detect_RISING (pin : Z) (callback : Z) (bouncetime : Z)
| Cleanup.

Inductive event : Type :=
| Print (line : string)
| HttpPost (url : string) (body : list (string * json)) (timeout : Z)
| HttpGet (url : string) (timeout : Z)
| Sleep (seconds : Q)
| Gpio (c : gpio_call).

(** ** The object and the world *)

(** The attributes [__init__] assigns.  An attribute that has not been
    assigned yet is [None]; reading it raises [AttributeError]. *)
Record controller : Type := {
  button_pressed : option bool;
  last_press_time : option Q;
  debounce_time : option Q
}.

Definition blank : controller :=
  {| button_pressed := None; last_press_time := None; debounce_time := None |}.

Record world : Type := {
  self : controller;
  (* successive results of [time.time()] and how many were taken *)
  clock : nat -> Q;
  clock_reads : nat;
  (* successive outcomes of HTTP requests and how many were made *)
  network : nat -> http_reply;
  requests : nat;
  (* whether the n-th [time.sleep] is cut short by an exception *)
  interrupt : nat -> option exn;
  sleeps : nat;
  (* whether a GPIO call fails *)
  gpio_fault : gpio_call -> option exn
}.

Definition with_self (c : controller) (w : world) : world :=
  {| self := c; clock := clock w; clock_reads := clock_reads w;
     network := network w; requests := requests w;
     interrupt := interrupt w; sleeps := sleeps w;
     gpio_fault := gpio_fault w |}.

Definition tick_clock (w : world) : world :=
  {| self := self w; clock := clock w; clock_reads := S (clock_reads w);
     network := network w; requests := requests w;
     interrupt := interrupt w; sleeps := sleeps w;
     gpio_fault := gpio_fault w |}.

Definition tick_network (w : world) : world :=
  {| self := self w; clock := clock w; clock_reads := clock_reads w;
     network := network w; requests := S (requests w);
     interrupt := interrupt w; sleeps := sleeps w;
     gpio_fault := gpio_fault w |}.

Definition tick_sleep (w : world) : world :=
  {| self := self w; clock := clock w; clock_reads := clock_reads w;
     network := network w; requests := requests w;
     interrupt := interrupt w; sleeps := S (sleeps w);
     gpio_fault := gpio_fault w |}.

(** ** The monad *)

(** [Running] is the outcome of a loop that is still going when the fuel of
    the model is spent; no handler sees it. *)
Inductive outcome (A : Type) : Type :=
| Returns (a : A)
| Raises (e : exn)
| Running.
Arguments Returns {A} a.
Arguments Raises {A} e.
Arguments Running {A}.

Record result (A : Type) : Type := {
  out : outcome A;
  final : world;
  emitted : list event
}.
Arguments out {A} r.
Arguments final {A} r.
Arguments emitted {A} r.
Arguments Build_result {A} out final emitted.

Definition M (A : Type) : Type := world -> result A.

Definition ret {A} (a : A) : M A :=
  fun w => {| out := Returns a; final := w; emitted := [] |}.

Definition raise {A} (e : exn) : M A :=
  fun w => {| out := Raises e; final := w; emitted := [] |}.

Definition bind {A B} (m : M A) (k : A -> M B) : M B :=
  fun w =>
    let r := m w in
    match out r with
    | Returns a =>
        let r' := k a (final r) in
        {| out := out r'; final := final r';
           emitted := emitted r ++ emitted r' |}
    | Raises e => {| out := Raises e; final := final r; emitted := emitted r |}
    | Running => {| out := Running; final := final r; emitted := emitted r |}
    end.

Notation "x <- m ;; k" := (bind m (fun x => k))
  (at level 61, m at next level, right associativity).
Notation "m ;; k" := (bind m (fun _ => k))
  (at level 61, right associativity).

(** [try: body / except <catches> as e: handler e] *)
Definition try_except {A} (body : M A) (catches : exn -> bool)
    (handler : exn -> M A) : M A :=
  fun w =>
    let r := body w in
    match out r with
    | Raises e =>
        if catches e then
          let r' := handler e (final r) in
          {| out := out r'; final := final r';
             emitted := emitted r ++ emitted r' |}
        else r
    | _ => r
    end.

(** [try: body / finally: fin].  The [finally] block runs however the body
    ends; if it raises, its exception replaces the outcome of the body. *)
Definition try_finally {A} (body : M A) (fin : M unit) : M A :=
  fun w =>
    let r := body w in
    match out r with
    | Running => r
    | o =>
        let r' := fin (final r) in
        {| out := match out r' with
                  | Returns _ => o
                  | Raises e => Raises e
                  | Running => Running
                  end;
           final := final r';
           emitted := emitted r ++ emitted r' |}
    end.

(** ** Primitives *)

Definition emit (ev : event) : M unit :=
  fun w => {| out := Returns tt; final := w; emitted := [ev] |}.

Definition print (line : string) : M unit := emit (Print line).

Definition time_time : M Q :=
  fun w => {| out := Returns (clock w (clock_reads w));
              final := tick_clock w; emitted := [] |}.

Definition reply_outcome (r : http_reply) : outcome Z :=
  match r with
  | Response c => Returns c
  | Failure e => Raises e
  end.

(** [requests.post(url, json=data, timeout=t)]; the value returned is
    [response.status_code]. *)
Definition requests_post (url : string) (data : list (string * json))
    (timeout : Z) : M Z :=
  fun w => {| out := reply_outcome (network w (requests w));
              final := tick_network w;
              emitted := [HttpPost url data timeout] |}.

Definition requests_get (url : string) (timeout : Z) : M Z :=
  fun w => {| out := reply_outcome (network w (requests w));
              final := tick_network w;
              emitted := [HttpGet url timeout] |}.

Definition time_sleep (seconds : Q) : M unit :=
  fun w => {| out := match interrupt w (sleeps w) with
                     | None => Returns tt
                     | Some e => Raises e
                     end;
              final := tick_sleep w;
              emitted := [Sleep seconds] |}.

Definition GPIO (c : gpio_call) : M unit :=
  fun w => {| out := match gpio_fault w c with
                     | None => Returns tt
                     | Some e => Raises e
                     end;
              final := w;
              emitted := [Gpio c] |}.

Definition AttributeError : exn := OtherException "AttributeError".

Definition get_attr {A} (field : controller -> option A) : M A :=
  fun w => match field (self w) with
           | Some a => ret a w
           | None => raise AttributeError w
           end.

Definition set_button_pressed (b : bool) : M unit :=
  fun w => ret tt (with_self {| button_pressed := Some b;
                                last_press_time := last_press_time (self w);
                                debounce_time := debounce_time (self w) |} w).

Definition set_last_press_time (t : Q) : M unit :=
  fun w => ret tt (with_self {| button_pressed := button_pressed (self w);
                                last_press_time := Some t;
                                debounce_time := debounce_time (self w) |} w).

Definition set_debounce_time (d : Q) : M unit :=
  fun w => ret tt (with_self {| button_pressed := button_pressed (self w);
                                last_press_time := last_press_time (self w);
                                debounce_time := Some d |} w).

(** [a > b] on clock values. *)
Definition Qgtb (a b : Q) : bool := negb (Qle_bool a b).

(** [f"{n}"] for an integer. *)
Definition str_int (n : Z) : string := NilZero.string_of_int (Z.to_int n).

(** ** PhysicalButtonController *)

Definition setup_gpio : M unit :=
  GPIO Setmode_BCM ;;
  GPIO (Setwarnings false) ;;
  GPIO (Setup_IN_PUD_DOWN BUTTON_1_PIN) ;;
  GPIO (Setup_IN_PUD_DOWN BUTTON_2_PIN) ;;
  GPIO (Add_event_detect_RISING BUTTON_1_PIN 1 300) ;;
  GPIO (Add_event_detect_RISING BUTTON_2_PIN 2 300) ;;
  print "GPIO configured. Button 1: GPIO 18, Button 2: GPIO 19".

Definition __init__ : M unit :=
  setup_gpio ;;
  set_button_pressed false ;;
  set_last_press_time 0 ;;
  set_debounce_time (3 # 10).

Definition send_button_press (button_number : Z) : M unit :=
  try_except
    (let url := FLASK_APP_URL ++ "/physical-button-press" in
     timestamp <- time_time ;;
     let data := [("button", JInt button_number);
                  ("timestamp", JFloat timestamp)] in
     status_code <- requests_post url data 5 ;;
     if status_code =? 200 then
       print ("Button " ++ str_int button_number ++ " signal sent successfully")
     else
       print ("Send error: Status " ++ str_int status_code))
    is_RequestException
    (fun e => print ("Connection error: " ++ str_exn e)).

Definition button_1_callback (channel : Z) : M unit :=
  current_time <- time_time ;;
  last <- get_attr last_press_time ;;
  debounce <- get_attr debounce_time ;;
  if Qgtb (current_time - last) debounce then
    set_last_press_time current_time ;;
    print "Button 1 pressed - Choose Variant 1" ;;
    send_button_press 1
  else ret tt.

Definition button_2_callback (channel : Z) : M unit :=
  current_time <- time_time ;;
  last <- get_attr last_press_time ;;
  debounce <- get_attr debounce_time ;;
  if Qgtb (current_time - last) debounce then
    set_last_press_time current_time ;;
    print "Button 2 pressed - Choose Variant 2" ;;
    send_button_press 2
  else ret tt.

Definition cleanup : M unit := GPIO Cleanup.

Definition check_connection : M unit :=
  try_except
    (status_code <- requests_get (FLASK_APP_URL ++ "/health") 5 ;;
     if status_code =? 200 then
       print "✓ Connection with Flask app established"
     else
       print "⚠ Flask app reachable but with issues")
    (fun _ => true)
    (fun _ =>
       print "✗ Unable to connect to Flask app" ;;
       print ("Verify that the app is running on " ++ FLASK_APP_URL)).

(** [while True: time.sleep(0.1)], unrolled [fuel] times. *)
Fixpoint idle_loop (fuel : nat) : M unit :=
  match fuel with
  | O => fun w => {| out := Running; final := w; emitted := [] |}
  | S fuel' => time_sleep (1 # 10) ;; idle_loop fuel'
  end.

Definition newline : string := String (ascii_of_nat 10) EmptyString.

Definition run (fuel : nat) : M unit :=
  print "Physical button controller started..." ;;
  print ("Connecting to: " ++ FLASK_APP_URL) ;;
  print "Press Ctrl+C to terminate" ;;
  try_finally
    (try_except
       (check_connection ;;
        idle_loop fuel)
       is_KeyboardInterrupt
       (fun _ => print (newline ++ "Shutting down...")))
    cleanup.

(** [if __name__ == "__main__":] *)
Definition main (fuel : nat) : M unit :=
  __init__ ;;
  run fuel.

(** ** The edge-detection thread of the GPIO library *)

(** [GPIO.add_event_detect] registers [button_1_callback] on pin 18 and
    [button_2_callback] on pin 19.  The library calls the registered method
    with the pin number on each rising edge it reports, one call after the
    other, and an exception that leaves a callback is printed and dropped
    there: it stops neither the thread nor the main program. *)
Inductive button : Type := Button1 | Button2.

Definition callback (b : button) : M unit :=
  match b with
  | Button1 => button_1_callback BUTTON_1_PIN
  | Button2 => button_2_callback BUTTON_2_PIN
  end.

Definition number (b : button) : Z :=
  match b with Button1 => 1 | Button2 => 2 end.

Definition on_edge (b : button) : M unit :=
  try_except (callback b) (fun _ => true) (fun _ => ret tt).

Fixpoint edges (bs : list button) : M unit :=
  match bs with
  | [] => ret tt
  | b :: bs' => on_edge b ;; edges bs'
  end.

(** ** Observations on worlds and event lists *)

(** The reading the next [time.time()] returns. *)
Definition now (w : world) : Q := clock w (clock_reads w).

Definition is_post (ev : event) : bool :=
  match ev with HttpPost _ _ _ => true | _ => false end.

Definition is_get (ev : event) : bool :=
  match ev with HttpGet _ _ => true | _ => false end.

Definition is_cleanup (ev : event) : bool :=
  match ev with Gpio Cleanup => true | _ => false end.

Definition posts (evs : list event) : list event := filter is_post evs.

(** The press events a list of events carries: button and timestamp of
    each POST body. *)
Definition press_of (ev : event) : list (Z * Q) :=
  match ev with
  | HttpPost _ [(_, JInt n); (_, JFloat t)] _ => [(n, t)]
  | _ => []
  end.

Definition press_events (evs : list event) : list (Z * Q) :=
  flat_map press_of evs.

(** The edges of a sequence that were accepted (an edge is accepted when its
    callback sends), each with the clock reading its callback took and the
    reading taken next, which [send_button_press] puts in the body. *)
Record press : Type := {
  which : button;
  edge_time : Q;
  timestamp : Q
}.

Fixpoint accepted (bs : list button) (w : world) : list press :=
  match bs with
  | [] => []
  | b :: bs' =>
      let r := on_edge b w in
      (if existsb is_post (emitted r)
       then [{| which := b; edge_time := now w;
                timestamp := clock w (S (clock_reads w)) |}]
       else [])
        ++ accepted bs' (final r)
  end.

Definition most_recent (l : list press) : option Q :=
  match rev l with
  | [] => None
  | p :: _ => Some (edge_time p)
  end.

(** The controller as [__init__] leaves it, but for [last_press_time]. *)
Definition constructed (w : world) (last : Q) : Prop :=
  last_press_time (self w) = Some last /\
  debounce_time (self w) = Some (3 # 10).

(** ** What the methods do, piece by piece *)

(** Both callbacks are the same code up to the button number and the line
    they print. *)
Definition pressed_line (b : button) : string :=
  match b with
  | Button1 => "Button 1 pressed - Choose Variant 1"
  | Button2 => "Button 2 pressed - Choose Variant 2"
  end.

(** The world [send_button_press] starts from after an accepted edge. *)
Definition stamped (w : world) : world :=
  with_self {| button_pressed := button_pressed (self w);
               last_press_time := Some (now w);
               debounce_time := debounce_time (self w) |} (tick_clock w).

Definition press_url : string := FLASK_APP_URL ++ "/physical-button-press".

(** The request [send_button_press n] makes from world [w]. *)
Definition press_post (n : Z) (w : world) : event :=
  HttpPost press_url [("button", JInt n); ("timestamp", JFloat (now w))] 5.

(** The GPIO calls of [setup_gpio], in order. *)
Definition setup_calls : list gpio_call :=
  [Setmode_BCM; Setwarnings false;
   Setup_IN_PUD_DOWN BUTTON_1_PIN; Setup_IN_PUD_DOWN BUTTON_2_PIN;
   Add_event_detect_RISING BUTTON_1_PIN 1 300;
   Add_event_detect_RISING BUTTON_2_PIN 2 300].

(** The attributes as [__init__] assigns them. *)
Definition fresh : controller :=
  {| button_pressed := Some false;
     last_press_time := Some 0%Q;
     debounce_time := Some (3 # 10) |}.

(** Accepted edges in order: each comes more than 0.3 s after the one
    before it, the first one after [last]. *)
Fixpoint chain (last : Q) (l : list press) : Prop :=
  match l with
  | [] => True
  | p :: l' => (3 # 10 < edge_time p - last)%Q /\ chain (edge_time p) l'
  end.

Definition last_accepted (last : Q) (l : list press) : Q :=
  match most_recent l with
  | Some t => t
  | None => last
  end.

Definition health_url : string := FLASK_APP_URL ++ "/health".

Definition unreachable_lines : list event :=
  [Print "✗ Unable to connect to Flask app";
   Print ("Verify that the app is running on " ++ FLASK_APP_URL)].

Definition nap : event := Sleep (1 # 10).

Definition banner : list event :=
  [Print "Physical button controller started...";
   Print ("Connecting to: " ++ FLASK_APP_URL);
   Print "Press Ctrl+C to terminate"].

Definition shutting_down : event := Print (newline ++ "Shutting down...").

(** ** Concrete worlds *)

(** A world whose oracles follow three scripts; past the end of a script the
    clock reads 0, the server answers 200 and sleeps are not interrupted. *)
Definition scripted (times : list Q) (replies : list http_reply)
    (cuts : list (option exn)) (faults : gpio_call -> option exn) : world :=
  {| self := blank;
     clock := fun n => nth n times 0%Q; clock_reads := 0;
     network := fun n => nth n replies (Response 200); requests := 0;
     interrupt := fun n => nth n cuts None; sleeps := 0;
     gpio_fault := faults |}.

Definition no_fault : gpio_call -> option exn := fun _ => None.

(** A board on which configuring pin 18 fails. *)
Definition pin_18_fails : gpio_call -> option exn :=
  fun c =>
    match c with
    | Setup_IN_PUD_DOWN 18 => Some (OtherException "RuntimeError")
    | _ => None
    end.

(** The readings of a clock that shows 1000 s at a first edge, is read again
    for the timestamp, and shows 1000.3 s at a second edge. *)
Definition boundary_world : world :=
  scripted [1000; 1000.01; 1000.3]%Q [] [] no_fault.

(** Button 1 is pressed when the clock shows 1000 and its timestamp is read
    0.3 ms later; it is pressed again at 1000.3001, timestamp read 0.1 ms
    later. *)
Definition jitter_world : world :=
  scripted [1000; 1000.0003; 1000.3001; 1000.3002]%Q [] [] no_fault.

(** A world with an accepted edge at 1000 s and a later edge at 1000.5 s. *)
Definition spaced_world : world :=
  scripted [1000; 1000.01; 1000.5; 1000.51]%Q [] [] no_fault.

(** The clock reads 0.2 s past the epoch at the first edge. *)
Definition epoch_world : world := scripted [0.2]%Q [] [] no_fault.

(** ** Further observations *)

(** The same world with another server behind it. *)
Definition with_network (net : nat -> http_reply) (w : world) : world :=
  {| self := self w; clock := clock w; clock_reads := clock_reads w;
     network := net; requests := requests w;
     interrupt := interrupt w; sleeps := sleeps w;
     gpio_fault := gpio_fault w |}.

(** A clock that never goes backwards. *)
Definition monotone_clock (w : world) : Prop :=
  forall n, (clock w n <= clock w (S n))%Q.

(** Presses in order, each stamped at or after its edge and at or before
    the edge of the next one; [lo] bounds the first edge from below. *)
Fixpoint ordered (lo : Q) (l : list press) : Prop :=
  match l with
  | [] => True
  | p :: l' =>
      (lo <= edge_time p)%Q /\ (edge_time p <= timestamp p)%Q /\
      ordered (timestamp p) l'
  end.

(** What an edge callback may do outside: print and POST. *)
Definition print_or_post (ev : event) : bool :=
  match ev with
  | Print _ | HttpPost _ _ _ => true
  | _ => false
  end.

(** A board on which [GPIO.cleanup] fails. *)
Definition cleanup_fails : gpio_call -> option exn :=
  fun c =>
    match c with
    | Cleanup => Some (OtherException "RuntimeError")
    | _ => None
    end.

(** A clock that shows n seconds at its n-th reading. *)
Definition ticking_world : world :=
  {| self := blank;
     clock := fun n => inject_Z (Z.of_nat n); clock_reads := 0;
     network := fun _ => Response 200; requests := 0;
     interrupt := fun _ => None; sleeps := 0;
     gpio_fault := no_fault |}.

(** Presses on button 1 every 0.4 s, timestamps read 10 ms later. *)
Definition steady_world : world :=
  scripted [1000; 1000.01; 1000.4; 1000.41; 1000.8; 1000.81]%Q [] []
    no_fault.

(** ** Floats and decimal numerals *)

(** A positive number that is a power of two: a one followed by zeros. *)
Fixpoint is_power_of_two (p : positive) : bool :=
  match p with
  | xH => true
  | xO p' => is_power_of_two p'
  | xI _ => false
  end.

(** The values a binary64 float can take (other than infinities and NaN)
    are binary fractions: in lowest terms the denominator is a power of
    two. *)
Definition binary_fraction (q : Q) : bool :=
  is_power_of_two (Qden (Qred q)).

(** A clock whose readings are floats. *)
Definition binary_clock (w : world) : Prop :=
  forall n, binary_fraction (clock w n) = true.

(** The integer a decimal numeral stands for, as [int(s)] reads it. *)
Definition int_of_str (s : string) : option Z :=
  option_map Z.of_int (NilZero.int_of_string s).

(** Binary readings: an edge at 1000 s, its timestamp, an edge 0.25 s after
    the first and one 0.5 s after it, with its timestamp. *)
Definition binary_world : world :=
  scripted [1000; 1000.125; 1000.25; 1000.5; 1000.625]%Q [] [] no_fault.

(** A server that answers the first three requests with 200, with 404, and
    not at all. *)
Definition three_replies_world : world :=
  scripted [5; 6; 7]%Q
    [Response 200; Response 404; Failure (RequestException "timed out")]
    [] no_fault.

(** * Properties *)

(** ** Arithmetic of the debounce test *)

Lemma Qgtb_true (a b : Q) : Qgtb a b = true <-> (b < a)%Q.
Proof.
  unfold Qgtb. rewrite negb_true_iff. split; intro H.
  - apply Qnot_le_lt. intro Hle. apply Qle_bool_iff in Hle. congruence.
  - destruct (Qle_bool a b) eqn:E; [|reflexivity].
    apply Qle_bool_iff in E. exfalso. exact (Qlt_not_le _ _ H E).
Qed.

Lemma Qgtb_false (a b : Q) : Qgtb a b = false <-> (a <= b)%Q.
Proof.
  unfold Qgtb. rewrite negb_false_iff. apply Qle_bool_iff.
Qed.

(** ** Lists of events *)

Lemma firstn_included {A} (n : nat) (l : list A) : incl (firstn n l) l.
Proof.
  revert n. induction l as [| a l IH]; intros [| n] x Hin; cbn in *;
    try contradiction.
  destruct Hin as [<- | Hin]; [left; reflexivity | right; exact (IH n x Hin)].
Qed.

Lemma posts_existsb (evs : list event) (ev : event) :
  posts evs = [ev] -> existsb is_post evs = true.
Proof.
  intro H. apply existsb_exists. exists ev.
  assert (Hin : In ev (posts evs)) by (rewrite H; left; reflexivity).
  apply filter_In in Hin. exact Hin.
Qed.

Lemma filter_repeat_nap (f : event -> bool) (n : nat) :
  f nap = false -> filter f (repeat nap n) = [].
Proof.
  intro H. induction n as [| n IH]; [reflexivity |].
  cbn [repeat filter]. rewrite H. exact IH.
Qed.

(** ** Steps of the monad *)

Lemma bind_print {B} (line : string) (k : M B) (w : world) :
  (print line ;; k) w =
  {| out := out (k w); final := final (k w);
     emitted := Print line :: emitted (k w) |}.
Proof. reflexivity. Qed.

(** A GPIO call followed by the rest of a method. *)
Lemma bind_GPIO {B} (c : gpio_call) (k : M B) (w : world) :
  (GPIO c ;; k) w =
  match gpio_fault w c with
  | None => {| out := out (k w); final := final (k w);
               emitted := Gpio c :: emitted (k w) |}
  | Some e => {| out := Raises e; final := w; emitted := [Gpio c] |}
  end.
Proof.
  unfold bind, GPIO; cbn. destruct (gpio_fault w c); reflexivity.
Qed.

Lemma try_finally_cleanup {A} (body : M A) (w : world) :
  try_finally body cleanup w =
  let r := body w in
  match out r with
  | Running => r
  | o => {| out := match gpio_fault (final r) Cleanup with
                   | None => o
                   | Some e => Raises e
                   end;
            final := final r;
            emitted := emitted r ++ [Gpio Cleanup] |}
  end.
Proof.
  unfold try_finally, cleanup, GPIO. cbv zeta.
  destruct (out (body w)); cbn [out final emitted];
    try destruct (gpio_fault (final (body w)) Cleanup); reflexivity.
Qed.

(** ** Emission *)

Lemma press_url_value :
  press_url = "http://144.178.100.238:65500/physical-button-press".
Proof. reflexivity. Qed.

(** [send_button_press] case by case on what the server does. *)
Lemma send_button_press_cases (n : Z) (w : world) :
  send_button_press n w =
  match network w (requests w) with
  | Response c =>
      {| out := Returns tt; final := tick_network (tick_clock w);
         emitted :=
           [press_post n w;
            Print (if c =? 200
                   then "Button " ++ str_int n ++ " signal sent successfully"
                   else "Send error: Status " ++ str_int c)] |}
  | Failure (RequestException d) =>
      {| out := Returns tt; final := tick_network (tick_clock w);
         emitted := [press_post n w; Print ("Connection error: " ++ d)] |}
  | Failure e =>
      {| out := Raises e; final := tick_network (tick_clock w);
         emitted := [press_post n w] |}
  end.
Proof.
  unfold send_button_press, try_except, bind, time_time, requests_post,
    print, emit, press_post, now; cbn.
  destruct (network w (requests w)) as [c | [d | | m]]; cbn;
    try reflexivity.
  destruct (c =? 200); reflexivity.
Qed.

Lemma send_button_press_posts (n : Z) (w : world) :
  posts (emitted (send_button_press n w)) = [press_post n w].
Proof.
  rewrite send_button_press_cases.
  destruct (network w (requests w)) as [c | [d | | m]]; reflexivity.
Qed.

(** An exception that is not a [RequestException] is not handled in
    [send_button_press]: it leaves the method, after the one request. *)
Lemma send_button_press_propagates (n : Z) (w : world) (e : exn) :
  network w (requests w) = Failure e ->
  is_RequestException e = false ->
  out (send_button_press n w) = Raises e.
Proof.
  intros H He. rewrite send_button_press_cases, H.
  destruct e; [discriminate | reflexivity | reflexivity].
Qed.

(** ** One edge *)

Lemma callback_eq (b : button) :
  callback b =
  (current_time <- time_time ;;
   last <- get_attr last_press_time ;;
   debounce <- get_attr debounce_time ;;
   if Qgtb (current_time - last) debounce then
     set_last_press_time current_time ;;
     print (pressed_line b) ;;
     send_button_press (number b)
   else ret tt).
Proof. destruct b; reflexivity. Qed.

Section OneEdge.

Variables (b : button) (w : world) (last : Q).
Hypothesis Hc : constructed w last.

(** A suppressed edge: only the clock was read. *)
Lemma callback_suppressed :
  (now w - last <= 3 # 10)%Q ->
  callback b w =
  {| out := Returns tt; final := tick_clock w; emitted := [] |}.
Proof.
  destruct Hc as [Hl Hd]. intro Hle. rewrite callback_eq.
  apply Qgtb_false in Hle.
  unfold bind, time_time, get_attr, ret; cbn.
  rewrite Hl; cbn. rewrite Hd; cbn.
  fold (now w). rewrite Hle. reflexivity.
Qed.

(** An accepted edge: the time is kept, the line printed, the press sent. *)
Lemma callback_accepted :
  (3 # 10 < now w - last)%Q ->
  callback b w =
  let r := send_button_press (number b) (stamped w) in
  {| out := out r; final := final r;
     emitted := Print (pressed_line b) :: emitted r |}.
Proof.
  destruct Hc as [Hl Hd]. intro Hlt. rewrite callback_eq.
  apply Qgtb_true in Hlt.
  unfold bind at 1 2 3, time_time, get_attr, ret; cbn.
  rewrite Hl; cbn. rewrite Hd; cbn.
  fold (now w). rewrite Hlt.
  unfold bind, set_last_press_time, print, emit, ret; cbn.
  fold (stamped w).
  destruct (out (send_button_press (number b) (stamped w))); reflexivity.
Qed.

Lemma callback_accepted_state :
  (3 # 10 < now w - last)%Q ->
  let r := callback b w in
  last_press_time (self (final r)) = Some (now w) /\
  posts (emitted r) = [press_post (number b) (stamped w)].
Proof.
  intros Hlt r. subst r.
  rewrite (callback_accepted Hlt). cbv zeta.
  cbn [out final emitted]. split.
  - rewrite send_button_press_cases.
    destruct (network (stamped w) (requests (stamped w)))
      as [c | [d | | m]]; reflexivity.
  - unfold posts. cbn [filter is_post]. apply send_button_press_posts.
Qed.

Lemma on_edge_suppressed :
  (now w - last <= 3 # 10)%Q ->
  on_edge b w =
  {| out := Returns tt; final := tick_clock w; emitted := [] |}.
Proof.
  intro Hle. unfold on_edge, try_except.
  rewrite (callback_suppressed Hle). reflexivity.
Qed.

Lemma on_edge_accepted :
  (3 # 10 < now w - last)%Q ->
  let r := on_edge b w in
  out r = Returns tt /\
  final r = tick_network (tick_clock (stamped w)) /\
  posts (emitted r) = [press_post (number b) (stamped w)] /\
  press_events (emitted r) = [(number b, clock w (S (clock_reads w)))].
Proof.
  intros Hlt r. subst r. unfold on_edge, try_except.
  rewrite (callback_accepted Hlt).
  rewrite send_button_press_cases.
  destruct (network (stamped w) (requests (stamped w)))
    as [c | [d | | m]];
    cbv zeta; cbn [out final emitted app]; repeat split.
Qed.

Lemma constructed_stamped :
  constructed (tick_network (tick_clock (stamped w))) (now w).
Proof. destruct Hc as [_ Hd]. split; [reflexivity | exact Hd]. Qed.

End OneEdge.

(** ** Construction *)

Lemma setup_gpio_succeeds (w : world) :
  (forall c, In c setup_calls -> gpio_fault w c = None) ->
  setup_gpio w =
  {| out := Returns tt; final := w;
     emitted := map Gpio setup_calls ++
       [Print "GPIO configured. Button 1: GPIO 18, Button 2: GPIO 19"] |}.
Proof.
  intro H. unfold setup_gpio.
  do 6 (rewrite bind_GPIO, H by (unfold setup_calls; cbn [In]; tauto)).
  reflexivity.
Qed.

Lemma setup_gpio_fails (w : world) :
  (exists c, In c setup_calls /\ gpio_fault w c <> None) ->
  exists e calls,
    setup_gpio w = {| out := Raises e; final := w; emitted := map Gpio calls |}
    /\ incl calls setup_calls.
Proof.
  intros (c & Hin & Hc). unfold setup_gpio.
  destruct (gpio_fault w Setmode_BCM) as [e|] eqn:E1.
  { exists e, (firstn 1 setup_calls). rewrite bind_GPIO, E1.
    split; [reflexivity | apply firstn_included]. }
  destruct (gpio_fault w (Setwarnings false)) as [e|] eqn:E2.
  { exists e, (firstn 2 setup_calls). rewrite bind_GPIO, E1, bind_GPIO, E2.
    split; [reflexivity | apply firstn_included]. }
  destruct (gpio_fault w (Setup_IN_PUD_DOWN BUTTON_1_PIN)) as [e|] eqn:E3.
  { exists e, (firstn 3 setup_calls).
    rewrite bind_GPIO, E1, bind_GPIO, E2, bind_GPIO, E3.
    split; [reflexivity | apply firstn_included]. }
  destruct (gpio_fault w (Setup_IN_PUD_DOWN BUTTON_2_PIN)) as [e|] eqn:E4.
  { exists e, (firstn 4 setup_calls).
    rewrite bind_GPIO, E1, bind_GPIO, E2, bind_GPIO, E3, bind_GPIO, E4.
    split; [reflexivity | apply firstn_included]. }
  destruct (gpio_fault w (Add_event_detect_RISING BUTTON_1_PIN 1 300))
    as [e|] eqn:E5.
  { exists e, (firstn 5 setup_calls).
    rewrite bind_GPIO, E1, bind_GPIO, E2, bind_GPIO, E3, bind_GPIO, E4,
      bind_GPIO, E5.
    split; [reflexivity | apply firstn_included]. }
  destruct (gpio_fault w (Add_event_detect_RISING BUTTON_2_PIN 2 300))
    as [e|] eqn:E6.
  { exists e, (firstn 6 setup_calls).
    rewrite bind_GPIO, E1, bind_GPIO, E2, bind_GPIO, E3, bind_GPIO, E4,
      bind_GPIO, E5, bind_GPIO, E6.
    split; [reflexivity | apply firstn_included]. }
  exfalso. unfold setup_calls in Hin. cbn [In] in Hin.
  repeat (destruct Hin as [<- | Hin]; [contradiction |]). exact Hin.
Qed.

(** When no GPIO call of the setup fails, [__init__] makes the six calls,
    prints, and assigns the three attributes. *)
Lemma init_succeeds (w : world) :
  (forall c, In c setup_calls -> gpio_fault w c = None) ->
  __init__ w =
  {| out := Returns tt; final := with_self fresh w;
     emitted := map Gpio setup_calls ++
       [Print "GPIO configured. Button 1: GPIO 18, Button 2: GPIO 19"] |}.
Proof.
  intro H. unfold __init__. unfold bind at 1.
  rewrite (setup_gpio_succeeds w H). cbn [out final emitted].
  unfold bind, set_button_pressed, set_last_press_time, set_debounce_time,
    ret; cbn [out final emitted self with_self button_pressed
              last_press_time debounce_time].
  rewrite !app_nil_r. reflexivity.
Qed.

(** When one does, the exception of the first failing call leaves
    [__init__], after the calls made so far and before any attribute is
    assigned. *)
Lemma init_fails (w : world) :
  (exists c, In c setup_calls /\ gpio_fault w c <> None) ->
  exists e calls,
    __init__ w = {| out := Raises e; final := w; emitted := map Gpio calls |}
    /\ incl calls setup_calls.
Proof.
  intro H. destruct (setup_gpio_fails w H) as (e & calls & Heq & Hincl).
  exists e, calls. split; [| exact Hincl].
  unfold __init__. unfold bind at 1. rewrite Heq. reflexivity.
Qed.

Lemma init_returns (w : world) :
  out (__init__ w) = Returns tt ->
  final (__init__ w) = with_self fresh w.
Proof.
  intro H.
  assert (Hall : forall c, In c setup_calls -> gpio_fault w c = None).
  { intros c Hin. destruct (gpio_fault w c) eqn:E; [| reflexivity].
    destruct (init_fails w) as (e' & calls & Heq & _).
    - exists c. split; [exact Hin | congruence].
    - rewrite Heq in H. discriminate. }
  rewrite (init_succeeds w Hall). reflexivity.
Qed.

Lemma init_constructed (w : world) :
  out (__init__ w) = Returns tt ->
  constructed (final (__init__ w)) 0 /\ now (final (__init__ w)) = now w.
Proof.
  intro H. rewrite (init_returns w H). repeat split.
Qed.

(** ** Sequences of edges *)

Lemma constructed_tick_clock (w : world) (last : Q) :
  constructed w last -> constructed (tick_clock w) last.
Proof. intro H. exact H. Qed.

Lemma most_recent_cons (p : press) (l : list press) :
  most_recent (p :: l) =
  match most_recent l with
  | Some t => Some t
  | None => Some (edge_time p)
  end.
Proof.
  unfold most_recent. cbn [rev]. destruct (rev l); reflexivity.
Qed.

(** What a sequence of edges keeps true of a constructed controller. *)
Lemma edges_invariant (bs : list button) :
  forall (w : world) (last : Q),
    constructed w last ->
    let r := edges bs w in
    out r = Returns tt /\
    constructed (final r) (last_accepted last (accepted bs w)) /\
    clock (final r) = clock w /\
    chain last (accepted bs w) /\
    press_events (emitted r) =
      map (fun p => (number (which p), timestamp p)) (accepted bs w) /\
    List.length (posts (emitted r)) = List.length (accepted bs w).
Proof.
  induction bs as [| b bs IH]; intros w last Hc r; subst r.
  - cbn. repeat split; apply Hc.
  - cbn [edges accepted]. unfold bind.
    destruct (Qlt_le_dec (3 # 10) (now w - last)) as [Hlt | Hle].
    + destruct (on_edge_accepted b w last Hc Hlt) as (Ho & Hf & Hp & He).
      rewrite (posts_existsb _ _ Hp), Ho, Hf.
      cbn [out final emitted app].
      destruct (IH _ _ (constructed_stamped w last Hc))
        as (Ho' & Hc' & Hn' & Hch' & He' & Hl').
      unfold press_events, posts in *.
      rewrite flat_map_app, filter_app, He, Hp, He', length_app, Hl'.
      unfold last_accepted in *. rewrite most_recent_cons.
      destruct Hc' as [Hl2 Hd2].
      repeat split; try assumption.
      revert Hl2. cbn [edge_time].
      destruct (most_recent _); intro Hl2; exact Hl2.
    + rewrite (on_edge_suppressed b w last Hc Hle).
      cbn [out final emitted app].
      destruct (IH _ _ (constructed_tick_clock w last Hc))
        as (Ho' & [Hl2 Hd2] & Hn' & Hch' & He' & Hl').
      repeat split; assumption.
Qed.

Lemma chain_lower (l : list press) :
  forall (last : Q) (j : nat) (q : press),
    chain last l -> nth_error l j = Some q ->
    (3 # 10 < edge_time q - last)%Q.
Proof.
  induction l as [| p l IH]; intros last [| j] q Hch Hq; cbn in *;
    try discriminate.
  - injection Hq as <-. apply Hch.
  - destruct Hch as [Hp Hch]. specialize (IH _ _ _ Hch Hq). lra.
Qed.

Lemma chain_pairwise (l : list press) :
  forall (last : Q) (i j : nat) (p q : press),
    chain last l -> (i < j)%nat ->
    nth_error l i = Some p -> nth_error l j = Some q ->
    (3 # 10 < edge_time q - edge_time p)%Q.
Proof.
  induction l as [| a l IH]; intros last i j p q Hch Hij Hp Hq.
  - destruct i; discriminate.
  - destruct Hch as [_ Hch]. destruct j as [| j]; [lia |].
    destruct i as [| i]; cbn in Hp, Hq.
    + injection Hp as <-. exact (chain_lower l _ _ _ Hch Hq).
    + apply (IH _ i j p q Hch); [lia | assumption | assumption].
Qed.

(** ** The health check *)

(** The lines [check_connection] prints for a reply. *)
Lemma check_connection_cases (w : world) :
  check_connection w =
  {| out := Returns tt; final := tick_network w;
     emitted :=
       HttpGet health_url 5 ::
       match network w (requests w) with
       | Response c =>
           [Print (if c =? 200
                   then "✓ Connection with Flask app established"
                   else "⚠ Flask app reachable but with issues")]
       | Failure _ => unreachable_lines
       end |}.
Proof.
  unfold check_connection, try_except, bind, requests_get, print, emit;
    cbn [out final emitted reply_outcome].
  destruct (network w (requests w)) as [c | e];
    cbn [out final emitted reply_outcome app].
  - destruct (c =? 200); reflexivity.
  - reflexivity.
Qed.

(** ** The idle loop *)

Lemma idle_loop_S (fuel : nat) (w : world) :
  idle_loop (S fuel) w =
  match interrupt w (sleeps w) with
  | None =>
      let r := idle_loop fuel (tick_sleep w) in
      {| out := out r; final := final r; emitted := nap :: emitted r |}
  | Some e => {| out := Raises e; final := tick_sleep w; emitted := [nap] |}
  end.
Proof.
  cbn [idle_loop]. unfold bind, time_sleep; cbn [out final emitted].
  destruct (interrupt w (sleeps w)); reflexivity.
Qed.

(** The loop only sleeps, and an unrolled loop sleeps at least once. *)
Lemma idle_loop_emitted (fuel : nat) :
  forall w, exists n, emitted (idle_loop (S fuel) w) = nap :: repeat nap n.
Proof.
  induction fuel as [| fuel IH]; intro w; rewrite idle_loop_S;
    destruct (interrupt w (sleeps w)).
  - exists 0%nat. reflexivity.
  - exists 0%nat. reflexivity.
  - exists 0%nat. reflexivity.
  - destruct (IH (tick_sleep w)) as [n Hn]. exists (S n).
    cbv zeta. cbn [emitted]. rewrite Hn. reflexivity.
Qed.

(** The loop never returns: it is left by an exception or not at all. *)
Lemma idle_loop_out (fuel : nat) :
  forall w, out (idle_loop fuel w) = Running \/
            exists e, out (idle_loop fuel w) = Raises e.
Proof.
  induction fuel as [| fuel IH]; intro w.
  - left. reflexivity.
  - rewrite idle_loop_S. destruct (interrupt w (sleeps w)) as [e |].
    + right. exists e. reflexivity.
    + exact (IH (tick_sleep w)).
Qed.

(** If the first k sleeps pass and the next one is cut short by [e], a loop
    with more than k iterations of fuel is left by [e] after k + 1 sleeps. *)
Lemma idle_loop_interrupted (k : nat) :
  forall (fuel : nat) (w : world) (e : exn),
    (forall i, (i < k)%nat -> interrupt w (sleeps w + i) = None) ->
    interrupt w (sleeps w + k) = Some e ->
    (k < fuel)%nat ->
    let r := idle_loop fuel w in
    out r = Raises e /\
    emitted r = repeat nap (S k) /\
    gpio_fault (final r) = gpio_fault w /\
    sleeps (final r) = (sleeps w + S k)%nat.
Proof.
  induction k as [| k IH]; intros fuel w e Hbefore Hcut Hfuel r; subst r;
    (destruct fuel as [| fuel]; [lia |]); rewrite idle_loop_S.
  - rewrite Nat.add_0_r in Hcut. rewrite Hcut. cbn [out emitted final].
    repeat split. cbn. lia.
  - assert (H0 : interrupt w (sleeps w) = None).
    { rewrite <- (Nat.add_0_r (sleeps w)). apply Hbefore. lia. }
    rewrite H0. cbv zeta. cbn [out emitted final].
    destruct (IH fuel (tick_sleep w) e) as (Ho & He & Hg & Hs).
    + intros i Hi. cbn [tick_sleep interrupt sleeps].
      replace (S (sleeps w) + i)%nat with (sleeps w + S i)%nat by lia.
      apply Hbefore. lia.
    + cbn [tick_sleep interrupt sleeps].
      replace (S (sleeps w) + k)%nat with (sleeps w + S k)%nat by lia.
      exact Hcut.
    + lia.
    + rewrite Ho, He, Hg, Hs. cbn [tick_sleep sleeps gpio_fault].
      repeat split. lia.
Qed.

(** ** The main loop *)

Lemma health_then_loop (fuel : nat) (w : world) :
  (check_connection ;; idle_loop fuel) w =
  let l := idle_loop fuel (tick_network w) in
  {| out := out l; final := final l;
     emitted := emitted (check_connection w) ++ emitted l |}.
Proof.
  unfold bind. rewrite check_connection_cases. reflexivity.
Qed.

(** [run] by the way the idle loop is left. *)
Lemma run_cases (fuel : nat) (w : world) :
  run fuel w =
  let h := check_connection w in
  let l := idle_loop fuel (tick_network w) in
  match out l with
  | Running =>
      {| out := Running; final := final l;
         emitted := banner ++ emitted h ++ emitted l |}
  | Raises e =>
      {| out := match gpio_fault (final l) Cleanup with
                | None => if is_KeyboardInterrupt e
                          then Returns tt else Raises e
                | Some e' => Raises e'
                end;
         final := final l;
         emitted := banner ++ emitted h ++ emitted l ++
                    (if is_KeyboardInterrupt e then [shutting_down] else [])
                    ++ [Gpio Cleanup] |}
  | Returns _ =>
      {| out := match gpio_fault (final l) Cleanup with
                | None => Returns tt
                | Some e' => Raises e'
                end;
         final := final l;
         emitted := banner ++ emitted h ++ emitted l ++ [Gpio Cleanup] |}
  end.
Proof.
  unfold run. rewrite !bind_print. cbn [out final emitted].
  rewrite try_finally_cleanup. unfold try_except.
  rewrite health_then_loop. cbv zeta. cbn [out final emitted].
  set (h := emitted (check_connection w)).
  destruct (idle_loop fuel (tick_network w)) as [o f evs].
  cbn [out final emitted].
  destruct o as [[] | e |]; cbn [out final emitted].
  - rewrite <- app_assoc. reflexivity.
  - destruct (is_KeyboardInterrupt e); unfold print, emit;
      cbn [out final emitted].
    + rewrite <- !app_assoc. reflexivity.
    + rewrite app_nil_l, <- !app_assoc. reflexivity.
  - reflexivity.
Qed.


(** * Main results *)

(** ** The debounce filter *)

Lemma is_power_of_two_spec (p : positive) :
  is_power_of_two p = true -> exists k : nat, Zpos p = 2 ^ Z.of_nat k.
Proof.
  induction p as [p IH | p IH |]; cbn [is_power_of_two]; intro H.
  - discriminate.
  - destruct (IH H) as [k Hk]. exists (S k).
    rewrite Nat2Z.inj_succ, Z.pow_succ_r by apply Nat2Z.is_nonneg.
    rewrite <- Hk. reflexivity.
  - exists 0%nat. reflexivity.
Qed.

Lemma binary_fraction_spec (q : Q) :
  binary_fraction q = true ->
  exists (m : Z) (k : nat),
    (q * inject_Z (2 ^ Z.of_nat k) == inject_Z m)%Q.
Proof.
  unfold binary_fraction. intro H.
  destruct (is_power_of_two_spec _ H) as [k Hk].
  exists (Qnum (Qred q)), k. rewrite <- Hk.
  rewrite <- (Qred_correct q) at 1.
  destruct (Qred q) as [n d]. unfold Qeq, Qmult, inject_Z.
  cbn [Qnum Qden]. rewrite Pos.mul_1_r. ring.
Qed.

(** Three times a power of two is not a multiple of five. *)
Lemma three_pow2_not_5 (k : nat) :
  forall n : Z, 3 * 2 ^ Z.of_nat k <> 5 * n.
Proof.
  induction k as [| k IH]; intro n.
  - change (2 ^ Z.of_nat 0) with 1. lia.
  - rewrite Nat2Z.inj_succ, Z.pow_succ_r by apply Nat2Z.is_nonneg.
    intro H. destruct (Z.Even_or_Odd n) as [[x Hx] | [x Hx]].
    + apply (IH x). lia.
    + lia.
Qed.

(** Two floats are never exactly 0.3 apart. *)
Lemma binary_gap_not_three_tenths (a b : Q) :
  binary_fraction a = true -> binary_fraction b = true ->
  ~ (a - b == 3 # 10)%Q.
Proof.
  intros Ha Hb Hgap.
  destruct (binary_fraction_spec a Ha) as (m1 & k1 & H1).
  destruct (binary_fraction_spec b Hb) as (m2 & k2 & H2).
  assert (H : ((3 # 10) * inject_Z (2 ^ Z.of_nat k1 * 2 ^ Z.of_nat k2)
               == inject_Z (m1 * 2 ^ Z.of_nat k2 - m2 * 2 ^ Z.of_nat k1))%Q).
  { rewrite <- Hgap.
    unfold Zminus. rewrite inject_Z_plus, inject_Z_opp, !inject_Z_mult.
    rewrite <- H1, <- H2. ring. }
  unfold Qeq, Qmult, inject_Z in H. cbn [Qnum Qden] in H.
  rewrite <- Z.pow_add_r, <- Nat2Z.inj_add in H by apply Nat2Z.is_nonneg.
  apply (three_pow2_not_5 (k1 + k2)
           (2 * (m1 * 2 ^ Z.of_nat k2 - m2 * 2 ^ Z.of_nat k1))).
  lia.
Qed.

(** With a clock of floats, [last_press_time] is a float too. *)
Lemma edges_binary (bs : list button) :
  forall (w : world) (last : Q),
    constructed w last ->
    binary_clock w ->
    binary_fraction last = true ->
    binary_fraction (last_accepted last (accepted bs w)) = true.
Proof.
  induction bs as [| b bs IH]; intros w last Hc Hclock Hlast.
  - exact Hlast.
  - cbn [accepted].
    destruct (Qlt_le_dec (3 # 10) (now w - last)) as [Hlt | Hle].
    + destruct (on_edge_accepted b w last Hc Hlt) as (_ & Hf & Hp & _).
      rewrite (posts_existsb _ _ Hp), Hf. cbn [app].
      unfold last_accepted. rewrite most_recent_cons. cbn [edge_time].
      specialize (IH _ (now w) (constructed_stamped w last Hc) Hclock
                    (Hclock (clock_reads w))).
      unfold last_accepted in IH.
      destruct (most_recent _); exact IH.
    + rewrite (on_edge_suppressed b w last Hc Hle). cbn [emitted existsb app final].
      exact (IH _ last (constructed_tick_clock w last Hc) Hclock Hlast).
Qed.

(** C1.  The readings of [time.time()] being floats: after any sequence of
    edge callbacks on either channel, take the next edge and the time t of
    the most recently accepted edge, which is what [last_press_time] holds.
    If the edge comes less than 0.3 s after t it is suppressed: its
    callback does nothing outside (no HTTP call) and leaves
    [last_press_time] as it is.  If it comes 0.3 s or more after t it is
    accepted: [last_press_time] becomes the time of the edge and one POST
    with the number of the button follows. *)
Theorem debounce_window (w0 : world) (bs : list button) (t : Q)
    (channel : Z) :
  binary_clock w0 ->
  out (__init__ w0) = Returns tt ->
  most_recent (accepted bs (final (__init__ w0))) = Some t ->
  let w := final (edges bs (final (__init__ w0))) in
  last_press_time (self w) = Some t /\
  ((now w - t < 3 # 10)%Q ->
   (emitted (button_1_callback channel w) = [] /\
    self (final (button_1_callback channel w)) = self w) /\
   (emitted (button_2_callback channel w) = [] /\
    self (final (button_2_callback channel w)) = self w)) /\
  ((3 # 10 <= now w - t)%Q ->
   (last_press_time (self (final (button_1_callback channel w)))
      = Some (now w) /\
    posts (emitted (button_1_callback channel w))
      = [press_post 1 (stamped w)]) /\
   (last_press_time (self (final (button_2_callback channel w)))
      = Some (now w) /\
    posts (emitted (button_2_callback channel w))
      = [press_post 2 (stamped w)])).
Proof.
  intros Hclock Hinit Hrecent w.
  destruct (init_constructed w0 Hinit) as [Hc0 _].
  assert (Hclock0 : binary_clock (final (__init__ w0))).
  { rewrite (init_returns w0 Hinit). exact Hclock. }
  destruct (edges_invariant bs _ _ Hc0) as (_ & Hc & Hsame & _).
  pose proof (edges_binary bs _ 0 Hc0 Hclock0 eq_refl) as Ht.
  fold w in Hc, Hsame. unfold last_accepted in Hc, Ht.
  rewrite Hrecent in Hc, Ht.
  assert (Hnow : binary_fraction (now w) = true).
  { unfold now. rewrite Hsame. apply Hclock0. }
  pose proof (binary_gap_not_three_tenths _ _ Hnow Ht) as Hgap.
  split; [apply Hc |]. split.
  - intro Hnear. assert (Hle : (now w - t <= 3 # 10)%Q) by lra.
    change (button_1_callback channel) with (callback Button1).
    change (button_2_callback channel) with (callback Button2).
    rewrite !(callback_suppressed _ w t Hc Hle). repeat split.
  - intro Hfar.
    assert (Hlt : (3 # 10 < now w - t)%Q).
    { destruct (Qle_lt_or_eq _ _ Hfar) as [H | H]; [exact H |].
      exfalso. apply Hgap. symmetry. exact H. }
    change (button_1_callback channel) with (callback Button1).
    change (button_2_callback channel) with (callback Button2).
    split.
    + exact (callback_accepted_state Button1 w t Hc Hlt).
    + exact (callback_accepted_state Button2 w t Hc Hlt).
Qed.

Lemma binary_world_clock : binary_clock binary_world.
Proof.
  intro n.
  do 5 (destruct n as [| n]; [reflexivity |]).
  destruct n; reflexivity.
Defined.

(** Both branches at work: after a press accepted at 1000 s, an edge on
    channel 2 at 1000.25 s is suppressed; it being suppressed, an edge on
    channel 1 at 1000.5 s is accepted. *)
Lemma debounce_window_witness :
  (let w := final (edges [Button1] (final (__init__ binary_world))) in
   now w = 1000.25%Q /\
   emitted (button_2_callback 19 w) = [] /\
   self (final (button_2_callback 19 w)) = self w) /\
  (let w := final (edges [Button1; Button2]
                     (final (__init__ binary_world))) in
   now w = 1000.5%Q /\
   last_press_time (self (final (button_1_callback 18 w))) = Some 1000.5%Q /\
   posts (emitted (button_1_callback 18 w)) = [press_post 1 (stamped w)]).
Proof.
  split.
  - split; [vm_compute; reflexivity |].
    destruct (debounce_window binary_world [Button1] 1000%Q 19)
      as (_ & Hsuppressed & _).
    + exact binary_world_clock.
    + vm_compute. reflexivity.
    + vm_compute. reflexivity.
    + apply Hsuppressed. vm_compute. reflexivity.
  - split; [vm_compute; reflexivity |].
    destruct (debounce_window binary_world [Button1; Button2] 1000%Q 18)
      as (_ & _ & Haccepted).
    + exact binary_world_clock.
    + vm_compute. reflexivity.
    + vm_compute. reflexivity.
    + apply Haccepted. vm_compute. discriminate.
Defined.

(** ** Emission *)

(** [str_int] writes the decimal numeral of its argument: reading the
    numeral gives the number back. *)
Lemma str_int_reads_back (z : Z) : int_of_str (str_int z) = Some z.
Proof.
  unfold int_of_str, str_int.
  rewrite NilZero.isi.
  - cbn [option_map]. rewrite DecimalZ.of_to. reflexivity.
  - destruct z as [| q | q]; cbn [Z.to_int]; try discriminate.
    intro H. injection H as H. exact (Unsigned.to_uint_nonnil q H).
  - destruct z as [| q | q]; cbn [Z.to_int]; try discriminate.
    intro H. injection H as H. exact (Unsigned.to_uint_nonnil q H).
Qed.

(** C2 (as amended).  For every press that is sent, [send_button_press]
    makes exactly one POST and never repeats it, and what the call does
    falls in one of four cases: a response with status 200, for which it
    prints success with the number of the button and returns; a response
    with any other status, for which it prints the status code and returns;
    a [RequestException], which it catches, printing its description, and
    returns; any other exception, which it does not catch: that one leaves
    the method for the edge callback, with nothing printed. *)
Theorem send_button_press_outcomes (n : Z) (w : world) :
  let r := send_button_press n w in
  posts (emitted r) = [press_post n w] /\
  requests (final r) = S (requests w) /\
  match network w (requests w) with
  | Response c =>
      out r = Returns tt /\
      exists numeral,
        emitted r =
          [press_post n w;
           Print (if c =? 200
                  then "Button " ++ numeral ++ " signal sent successfully"
                  else "Send error: Status " ++ numeral)] /\
        int_of_str numeral = Some (if c =? 200 then n else c)
  | Failure e =>
      if is_RequestException e
      then out r = Returns tt /\
           emitted r =
             [press_post n w; Print ("Connection error: " ++ str_exn e)]
      else out r = Raises e /\ emitted r = [press_post n w]
  end.
Proof.
  intro r. subst r.
  rewrite send_button_press_posts, send_button_press_cases.
  destruct (network w (requests w)) as [c | [d | | m]];
    cbn [is_RequestException out final emitted str_exn];
    repeat split.
  destruct (c =? 200).
  - exists (str_int n). split; [reflexivity | apply str_int_reads_back].
  - exists (str_int c). split; [reflexivity | apply str_int_reads_back].
Qed.

(** The three handled cases on concrete replies: button 1 sent three
    times, answered with 200, with 404 and by a timeout. *)
Lemma send_button_press_lines :
  let w1 := three_replies_world in
  let w2 := final (send_button_press 1 w1) in
  let w3 := final (send_button_press 1 w2) in
  emitted (send_button_press 1 w1) =
    [press_post 1 w1; Print "Button 1 signal sent successfully"] /\
  emitted (send_button_press 1 w2) =
    [press_post 1 w2; Print "Send error: Status 404"] /\
  emitted (send_button_press 1 w3) =
    [press_post 1 w3; Print "Connection error: timed out"] /\
  out (send_button_press 1 w3) = Returns tt.
Proof.
  cbv zeta. repeat split; vm_compute; reflexivity.
Qed.

(** C2 as stated fails on its 'in no case': when [requests.post] raises an
    exception that is not a [RequestException], [send_button_press] does
    not catch it; the exception leaves the method after the one request,
    and nothing is printed. *)
Lemma send_button_press_uncaught_counterexample :
  let w := scripted [5%Q] [Failure (OtherException "MemoryError")] []
             no_fault in
  let r := send_button_press 1 w in
  out r = Raises (OtherException "MemoryError") /\
  out r <> Returns tt /\
  emitted r = [press_post 1 w].
Proof.
  cbv zeta. repeat split; try (vm_compute; reflexivity).
  vm_compute. discriminate.
Qed.

(** ** Two channels, one filter *)

(** C3.  With no accepted press in the 0.3 s before it, a press on channel 1
    followed less than 0.3 s later by a press on channel 2 gives exactly
    one outbound event, and it carries button 1. *)
Theorem cross_channel_single_event (w : world) (last : Q) :
  constructed w last ->
  (3 # 10 < now w - last)%Q ->
  let w1 := final (on_edge Button1 w) in
  (now w1 - now w < 3 # 10)%Q ->
  let r := edges [Button1; Button2] w in
  posts (emitted r) =
    [HttpPost "http://144.178.100.238:65500/physical-button-press"
       [("button", JInt 1);
        ("timestamp", JFloat (clock w (S (clock_reads w))))] 5] /\
  press_events (emitted r) = [(1, clock w (S (clock_reads w)))] /\
  accepted [Button1; Button2] w =
    [{| which := Button1; edge_time := now w;
        timestamp := clock w (S (clock_reads w)) |}].
Proof.
  intros Hc Hlt w1 Hnear r. subst r.
  destruct (on_edge_accepted Button1 w last Hc Hlt) as (Ho & Hf & Hp & He).
  assert (Hc1 : constructed w1 (now w)).
  { unfold w1. rewrite Hf. exact (constructed_stamped w last Hc). }
  assert (Hle : (now w1 - now w <= 3 # 10)%Q) by lra.
  pose proof (on_edge_suppressed Button2 w1 (now w) Hc1 Hle) as H2.
  cbn [edges accepted]. unfold bind. fold w1.
  rewrite Ho. cbv zeta. cbn [out final emitted]. fold w1.
  rewrite H2. cbn [out final emitted ret app existsb].
  rewrite (posts_existsb _ _ Hp).
  rewrite !app_nil_r. unfold press_events in *.
  rewrite Hp, He. repeat split.
Qed.

Lemma cross_channel_single_event_witness :
  let w := final (__init__ (scripted [1000; 1000.01; 1000.1]%Q [] []
                              no_fault)) in
  let r := edges [Button1; Button2] w in
  posts (emitted r) =
    [HttpPost "http://144.178.100.238:65500/physical-button-press"
       [("button", JInt 1); ("timestamp", JFloat 1000.01%Q)] 5] /\
  press_events (emitted r) = [(1, 1000.01%Q)] /\
  accepted [Button1; Button2] w =
    [{| which := Button1; edge_time := 1000%Q; timestamp := 1000.01%Q |}].
Proof.
  intros w r.
  apply (cross_channel_single_event w 0%Q).
  - split; reflexivity.
  - vm_compute. reflexivity.
  - vm_compute. reflexivity.
Defined.

(** ** The first edge *)

(** C4 (as amended).  From the state [__init__] leaves, with
    [last_press_time] at 0, the first edge is accepted on either channel
    whenever the clock then reads more than 0.3 s past the epoch; how long
    the process has been running plays no part. *)
Theorem first_edge_accepted (w0 : world) (channel : Z) :
  out (__init__ w0) = Returns tt ->
  let w := final (__init__ w0) in
  (3 # 10 < now w)%Q ->
  last_press_time (self w) = Some 0%Q /\
  (last_press_time (self (final (button_1_callback channel w)))
     = Some (now w) /\
   posts (emitted (button_1_callback channel w))
     = [press_post 1 (stamped w)]) /\
  (last_press_time (self (final (button_2_callback channel w)))
     = Some (now w) /\
   posts (emitted (button_2_callback channel w))
     = [press_post 2 (stamped w)]).
Proof.
  intros Hinit w Hnow.
  destruct (init_constructed w0 Hinit) as [Hc _]. fold w in Hc.
  assert (Hlt : (3 # 10 < now w - 0)%Q) by lra.
  split; [apply Hc |]. split.
  - exact (callback_accepted_state Button1 w 0 Hc Hlt).
  - exact (callback_accepted_state Button2 w 0 Hc Hlt).
Qed.

Lemma first_edge_accepted_witness :
  let w := final (__init__ boundary_world) in
  last_press_time (self w) = Some 0%Q /\
  (last_press_time (self (final (button_1_callback 18 w)))
     = Some (now w) /\
   posts (emitted (button_1_callback 18 w))
     = [press_post 1 (stamped w)]) /\
  (last_press_time (self (final (button_2_callback 18 w)))
     = Some (now w) /\
   posts (emitted (button_2_callback 18 w))
     = [press_post 2 (stamped w)]).
Proof.
  apply (first_edge_accepted boundary_world 18).
  - vm_compute. reflexivity.
  - vm_compute. reflexivity.
Defined.

(** C4 as stated fails when the clock reads 0.3 s or less at the first
    edge: with a reading of 0.2 s the callback finds 0.2 - 0 > 0.3 false,
    sends nothing and leaves [last_press_time] at 0. *)
Lemma first_edge_near_epoch_counterexample :
  let w := final (__init__ epoch_world) in
  out (__init__ epoch_world) = Returns tt /\
  last_press_time (self w) = Some 0%Q /\
  now w = 0.2%Q /\
  emitted (button_1_callback BUTTON_1_PIN w) = [] /\
  emitted (button_2_callback BUTTON_2_PIN w) = [] /\
  last_press_time (self (final (button_1_callback BUTTON_1_PIN w)))
    = Some 0%Q.
Proof.
  cbv zeta. repeat split; vm_compute; reflexivity.
Qed.

(** ** The request of a press *)

(** C5.  An accepted press on channel n (1 or 2) makes exactly one HTTP
    POST, to [FLASK_APP_URL/physical-button-press], with timeout 5 and a
    body of exactly the two keys "button", the integer n, and "timestamp",
    the reading of the clock taken right after the reading of the edge. *)
Theorem accepted_press_posts_once (w : world) (last : Q) (channel : Z) :
  constructed w last ->
  (3 # 10 < now w - last)%Q ->
  let stamp := clock w (S (clock_reads w)) in
  posts (emitted (button_1_callback channel w)) =
    [HttpPost "http://144.178.100.238:65500/physical-button-press"
       [("button", JInt 1); ("timestamp", JFloat stamp)] 5] /\
  posts (emitted (button_2_callback channel w)) =
    [HttpPost "http://144.178.100.238:65500/physical-button-press"
       [("button", JInt 2); ("timestamp", JFloat stamp)] 5].
Proof.
  intros Hc Hlt stamp. split.
  - change (button_1_callback channel) with (callback Button1).
    rewrite (callback_accepted Button1 w last Hc Hlt).
    cbv zeta. cbn [emitted]. unfold posts. cbn [filter is_post].
    apply send_button_press_posts.
  - change (button_2_callback channel) with (callback Button2).
    rewrite (callback_accepted Button2 w last Hc Hlt).
    cbv zeta. cbn [emitted]. unfold posts. cbn [filter is_post].
    apply send_button_press_posts.
Qed.

Lemma accepted_press_posts_once_witness :
  let w := final (__init__ boundary_world) in
  posts (emitted (button_1_callback 18 w)) =
    [HttpPost "http://144.178.100.238:65500/physical-button-press"
       [("button", JInt 1); ("timestamp", JFloat 1000.01%Q)] 5] /\
  posts (emitted (button_2_callback 18 w)) =
    [HttpPost "http://144.178.100.238:65500/physical-button-press"
       [("button", JInt 2); ("timestamp", JFloat 1000.01%Q)] 5].
Proof.
  intro w.
  apply (accepted_press_posts_once w 0%Q 18).
  - split; reflexivity.
  - vm_compute. reflexivity.
Defined.

(** ** Shutdown *)

(** C6.  When [time.sleep] is cut short by [KeyboardInterrupt] in the idle
    loop, after any number k of full sleeps, [run] leaves the loop, prints
    that it shuts down, calls [GPIO.cleanup] (the one cleanup of the run,
    and the last thing it does) and returns. *)
Theorem run_cleans_up_on_interrupt (w : world) (k fuel : nat) :
  (forall i, (i < k)%nat -> interrupt w (sleeps w + i) = None) ->
  interrupt w (sleeps w + k) = Some KeyboardInterrupt ->
  gpio_fault w Cleanup = None ->
  (k < fuel)%nat ->
  let r := run fuel w in
  out r = Returns tt /\
  filter is_cleanup (emitted r) = [Gpio Cleanup] /\
  emitted r =
    (banner ++ emitted (check_connection w) ++ repeat nap (S k) ++
     [shutting_down; Gpio Cleanup])%list.
Proof.
  intros Hbefore Hcut Hclean Hfuel r. subst r.
  destruct (idle_loop_interrupted k fuel (tick_network w) KeyboardInterrupt
              Hbefore Hcut Hfuel) as (Ho & He & Hg & _).
  rewrite run_cases. cbv zeta. rewrite Ho, He, Hg.
  cbn [out emitted is_KeyboardInterrupt gpio_fault tick_network].
  rewrite Hclean. split; [reflexivity |]. split; [| reflexivity].
  rewrite check_connection_cases. cbn [emitted].
  rewrite !filter_app, (filter_repeat_nap is_cleanup (S k) eq_refl).
  destruct (network w (requests w)) as [c | e]; reflexivity.
Qed.

Lemma run_cleans_up_on_interrupt_witness :
  let w := scripted [] [] [None; None; Some KeyboardInterrupt] no_fault in
  let r := run 10 w in
  out r = Returns tt /\
  filter is_cleanup (emitted r) = [Gpio Cleanup] /\
  emitted r =
    (banner ++ emitted (check_connection w) ++ repeat nap 3 ++
     [shutting_down; Gpio Cleanup])%list.
Proof.
  intros w r.
  apply (run_cleans_up_on_interrupt w 2 10).
  - intros [| [| i]] Hi; [reflexivity | reflexivity | lia].
  - reflexivity.
  - reflexivity.
  - lia.
Defined.

(** ** The health check at startup *)

(** C7.  [run] makes one GET, to [FLASK_APP_URL/health] with timeout 5,
    right after its banner; prints for a status of 200 that the connection
    is established, for another status that the app is reachable but with
    issues, for any exception that it cannot connect; and in each case goes
    on to the first sleep of the idle loop.  No other GET is made. *)
Theorem health_check_once (w : world) (fuel : nat) :
  exists log n rest,
    emitted (run (S fuel) w) =
      (banner ++ [HttpGet "http://144.178.100.238:65500/health" 5] ++ log ++
       Sleep (1 # 10) :: repeat (Sleep (1 # 10)) n ++ rest)%list /\
    log = match network w (requests w) with
          | Response c =>
              if c =? 200
              then [Print "✓ Connection with Flask app established"]
              else [Print "⚠ Flask app reachable but with issues"]
          | Failure _ =>
              [Print "✗ Unable to connect to Flask app";
               Print "Verify that the app is running on http://144.178.100.238:65500"]
          end /\
    filter is_get (emitted (run (S fuel) w)) =
      [HttpGet "http://144.178.100.238:65500/health" 5].
Proof.
  destruct (idle_loop_emitted fuel (tick_network w)) as [n Hn].
  rewrite run_cases. cbv zeta. rewrite check_connection_cases.
  cbn [emitted].
  set (log := match network w (requests w) with
              | Response c => _ | Failure _ => _ end).
  assert (Hlog : filter is_get log = []).
  { subst log. destruct (network w (requests w)) as [c | e];
      [destruct (c =? 200) |]; reflexivity. }
  assert (Hlog' : log = match network w (requests w) with
          | Response c =>
              if c =? 200
              then [Print "✓ Connection with Flask app established"]
              else [Print "⚠ Flask app reachable but with issues"]
          | Failure _ =>
              [Print "✗ Unable to connect to Flask app";
               Print "Verify that the app is running on http://144.178.100.238:65500"]
          end).
  { subst log. destruct (network w (requests w)) as [c | e];
      [destruct (c =? 200) |]; reflexivity. }
  pose proof (filter_repeat_nap is_get n eq_refl) as Hnaps.
  fold nap.
  destruct (out (idle_loop (S fuel) (tick_network w))) as [[] | e |];
    cbn [emitted]; rewrite Hn.
  - exists log, n, [Gpio Cleanup]. split; [reflexivity |].
    split; [exact Hlog' |].
    change (HttpGet health_url 5 :: log)
      with ([HttpGet health_url 5] ++ log)%list.
    rewrite !filter_app, Hlog. cbn [filter is_get app]. rewrite Hnaps.
    reflexivity.
  - exists log, n,
      ((if is_KeyboardInterrupt e then [shutting_down] else [])
         ++ [Gpio Cleanup])%list.
    split; [reflexivity |]. split; [exact Hlog' |].
    change (HttpGet health_url 5 :: log)
      with ([HttpGet health_url 5] ++ log)%list.
    rewrite !filter_app, Hlog. cbn [filter is_get app]. rewrite Hnaps.
    destruct (is_KeyboardInterrupt e); reflexivity.
  - exists log, n, []. split; [rewrite app_nil_r; reflexivity |].
    split; [exact Hlog' |].
    change (HttpGet health_url 5 :: log)
      with ([HttpGet health_url 5] ++ log)%list.
    rewrite !filter_app, Hlog. cbn [filter is_get app]. rewrite Hnaps.
    reflexivity.
Qed.

(** ** A failing setup *)

(** C8 (as amended).  If a GPIO call of the setup fails, its
    exception leaves [__init__] and the script: [run] is never entered
    (nothing but the GPIO calls made so far has happened, no attribute is
    assigned), and [GPIO.cleanup] is not called. *)
Theorem setup_failure_is_fatal (w : world) (fuel : nat) :
  (exists c, In c setup_calls /\ gpio_fault w c <> None) ->
  exists e calls,
    main fuel w =
      {| out := Raises e; final := w; emitted := map Gpio calls |} /\
    incl calls setup_calls /\
    filter is_cleanup (emitted (main fuel w)) = [].
Proof.
  intro Hfault.
  destruct (init_fails w Hfault) as (e & calls & Heq & Hincl).
  assert (Hmain : main fuel w =
    {| out := Raises e; final := w; emitted := map Gpio calls |}).
  { unfold main. unfold bind at 1. rewrite Heq. reflexivity. }
  exists e, calls. split; [exact Hmain |]. split; [exact Hincl |].
  rewrite Hmain. cbn [emitted].
  clear Heq Hmain. induction calls as [| c calls IH]; [reflexivity |].
  cbn [map filter].
  assert (Hc : In c setup_calls) by (apply Hincl; left; reflexivity).
  assert (Hnot : is_cleanup (Gpio c) = false).
  { unfold setup_calls in Hc. cbn [In] in Hc.
    repeat (destruct Hc as [<- | Hc]; [reflexivity |]). contradiction. }
  rewrite Hnot. apply IH. intros x Hx. apply Hincl. right. exact Hx.
Qed.

Lemma setup_failure_is_fatal_witness :
  exists e calls,
    main 5 (scripted [] [] [] pin_18_fails) =
      {| out := Raises e; final := scripted [] [] [] pin_18_fails;
         emitted := map Gpio calls |} /\
    incl calls setup_calls /\
    filter is_cleanup (emitted (main 5 (scripted [] [] [] pin_18_fails))) = [].
Proof.
  apply (setup_failure_is_fatal (scripted [] [] [] pin_18_fails) 5).
  exists (Setup_IN_PUD_DOWN 18). split.
  - right. right. left. reflexivity.
  - discriminate.
Defined.

(** C8 as stated fails in its last part: when configuring pin 18 fails, the
    script ends with that exception after three GPIO calls, and
    [GPIO.cleanup] is not among them. *)
Lemma setup_failure_no_cleanup_counterexample :
  let r := main 5 (scripted [] [] [] pin_18_fails) in
  out r = Raises (OtherException "RuntimeError") /\
  emitted r =
    [Gpio Setmode_BCM; Gpio (Setwarnings false); Gpio (Setup_IN_PUD_DOWN 18)]
  /\ ~ In (Gpio Cleanup) (emitted r).
Proof.
  cbv zeta. split; [vm_compute; reflexivity |].
  split; [vm_compute; reflexivity |].
  intro Hin.
  assert (Hf : existsb is_cleanup
                 (emitted (main 5 (scripted [] [] [] pin_18_fails))) = true).
  { apply existsb_exists. exists (Gpio Cleanup). split; [exact Hin | reflexivity]. }
  vm_compute in Hf. discriminate.
Qed.

(** ** Accepted edges and their timestamps *)

(** C9 (as amended).  The press events sent during a run are those
    of the accepted edges, in order, and any two accepted edges, on the same
    channel or not, have edge times (the readings the filter compares and
    keeps in [last_press_time]) more than 0.3 s apart.  The timestamp in a
    body is a later reading of the clock; nothing is said about it here. *)
Theorem accepted_edges_spaced (w0 : world) (bs : list button) (i j : nat)
    (p q : press) :
  out (__init__ w0) = Returns tt ->
  let w := final (__init__ w0) in
  (i < j)%nat ->
  nth_error (accepted bs w) i = Some p ->
  nth_error (accepted bs w) j = Some q ->
  press_events (emitted (edges bs w)) =
    map (fun a => (number (which a), timestamp a)) (accepted bs w) /\
  (3 # 10 < edge_time q - edge_time p)%Q.
Proof.
  intros Hinit w Hij Hp Hq.
  destruct (init_constructed w0 Hinit) as [Hc _]. fold w in Hc.
  destruct (edges_invariant bs w 0 Hc) as (_ & _ & _ & Hch & He & _).
  split; [exact He |].
  exact (chain_pairwise _ _ i j p q Hch Hij Hp Hq).
Qed.

Lemma accepted_edges_spaced_witness :
  let w := final (__init__ jitter_world) in
  press_events (emitted (edges [Button1; Button1] w)) =
    map (fun a => (number (which a), timestamp a))
      (accepted [Button1; Button1] w) /\
  (3 # 10 < 1000.3001 - 1000)%Q.
Proof.
  intro w.
  apply (accepted_edges_spaced jitter_world [Button1; Button1] 0 1
           {| which := Button1; edge_time := 1000; timestamp := 1000.0003 |}
           {| which := Button1; edge_time := 1000.3001;
              timestamp := 1000.3002 |}).
  - vm_compute. reflexivity.
  - lia.
  - vm_compute. reflexivity.
  - vm_compute. reflexivity.
Defined.

(** C9 as stated fails: both presses of [jitter_world] are on channel 1
    and both are sent, with timestamps 1000.0003 and 1000.3002 in the
    bodies, which are 0.2999 s apart. *)
Lemma press_timestamps_counterexample :
  let w := final (__init__ jitter_world) in
  out (__init__ jitter_world) = Returns tt /\
  press_events (emitted (edges [Button1; Button1] w)) =
    [(1, 1000.0003%Q); (1, 1000.3002%Q)] /\
  ~ (3 # 10 < 1000.3002 - 1000.0003)%Q /\
  (1000.3002 - 1000.0003 == 0.2999)%Q.
Proof.
  cbv zeta. repeat split; try (vm_compute; reflexivity).
  vm_compute. discriminate.
Qed.

(** ** Exceptions in the health check *)

(** C10.  Whatever exception the GET raises, [KeyboardInterrupt] included,
    [check_connection] handles it: it prints the two lines of the
    unreachable case and returns normally, and [run] goes on to the first
    sleep of the idle loop. *)
Theorem health_check_swallows_everything (w : world) (e : exn)
    (fuel : nat) :
  network w (requests w) = Failure e ->
  check_connection w =
    {| out := Returns tt; final := tick_network w;
       emitted :=
         [HttpGet "http://144.178.100.238:65500/health" 5;
          Print "✗ Unable to connect to Flask app";
          Print "Verify that the app is running on http://144.178.100.238:65500"] |} /\
  exists n rest,
    emitted (run (S fuel) w) =
      (banner ++ emitted (check_connection w) ++
       Sleep (1 # 10) :: repeat (Sleep (1 # 10)) n ++ rest)%list.
Proof.
  intro Hfail. split.
  - rewrite check_connection_cases, Hfail. reflexivity.
  - destruct (idle_loop_emitted fuel (tick_network w)) as [n Hn].
    rewrite run_cases. cbv zeta.
    destruct (out (idle_loop (S fuel) (tick_network w))) as [[] | e' |];
      cbn [emitted]; rewrite Hn; fold nap.
    + exists n, [Gpio Cleanup]. reflexivity.
    + exists n, ((if is_KeyboardInterrupt e' then [shutting_down] else [])
                   ++ [Gpio Cleanup])%list.
      reflexivity.
    + exists n, []. rewrite app_nil_r. reflexivity.
Qed.

Lemma health_check_swallows_everything_witness :
  let w := scripted [] [Failure KeyboardInterrupt] [] no_fault in
  check_connection w =
    {| out := Returns tt; final := tick_network w;
       emitted :=
         [HttpGet "http://144.178.100.238:65500/health" 5;
          Print "✗ Unable to connect to Flask app";
          Print "Verify that the app is running on http://144.178.100.238:65500"] |} /\
  exists n rest,
    emitted (run 3 w) =
      (banner ++ emitted (check_connection w) ++
       Sleep (1 # 10) :: repeat (Sleep (1 # 10)) n ++ rest)%list.
Proof.
  intro w.
  apply (health_check_swallows_everything w KeyboardInterrupt 2).
  reflexivity.
Defined.

(** * Further properties *)

(** ** Setup *)

(** X1.  [__init__] stops at the first GPIO call of the setup that fails:
    the calls before it and the failing call itself have been made, in
    order, none after it; the exception raised is that call's; nothing is
    printed and no attribute is assigned. *)
Theorem setup_stops_at_first_failure (w : world) (n : nat) (c : gpio_call)
    (e : exn) :
  nth_error setup_calls n = Some c ->
  gpio_fault w c = Some e ->
  (forall c', In c' (firstn n setup_calls) -> gpio_fault w c' = None) ->
  __init__ w =
    {| out := Raises e; final := w;
       emitted := map Gpio (firstn (S n) setup_calls) |} /\
  setup_gpio w =
    {| out := Raises e; final := w;
       emitted := map Gpio (firstn (S n) setup_calls) |}.
Proof.
  intros Hn Hfail Hbefore.
  assert (Hsetup : setup_gpio w =
    {| out := Raises e; final := w;
       emitted := map Gpio (firstn (S n) setup_calls) |}).
  { unfold setup_gpio.
    unfold setup_calls in Hn.
    destruct n as [| [| [| [| [| [| n]]]]]]; cbn [nth_error] in Hn;
      try (destruct n; discriminate); injection Hn as <-;
      repeat (rewrite bind_GPIO, Hbefore
                by (unfold setup_calls; cbn [firstn In]; tauto));
      rewrite bind_GPIO, Hfail; reflexivity. }
  split; [| exact Hsetup].
  unfold __init__. unfold bind at 1. rewrite Hsetup. reflexivity.
Qed.

Lemma setup_stops_at_first_failure_witness :
  let w := scripted [] [] [] pin_18_fails in
  __init__ w =
    {| out := Raises (OtherException "RuntimeError"); final := w;
       emitted := map Gpio (firstn 3 setup_calls) |} /\
  setup_gpio w =
    {| out := Raises (OtherException "RuntimeError"); final := w;
       emitted := map Gpio (firstn 3 setup_calls) |}.
Proof.
  intro w.
  apply (setup_stops_at_first_failure w 2 (Setup_IN_PUD_DOWN BUTTON_1_PIN)).
  - reflexivity.
  - reflexivity.
  - intros c' [<- | [<- | []]]; reflexivity.
Defined.

(** ** Edges on a controller that was not constructed *)

Lemma callback_unconstructed (b : button) (w : world) :
  last_press_time (self w) = None ->
  callback b w =
  {| out := Raises AttributeError; final := tick_clock w; emitted := [] |}.
Proof.
  intro Hl. rewrite callback_eq.
  unfold bind at 1 2, time_time, get_attr, raise;
    cbn [out final emitted tick_clock self].
  rewrite Hl. reflexivity.
Qed.

Lemma on_edge_unconstructed (b : button) (w : world) :
  last_press_time (self w) = None ->
  on_edge b w =
  {| out := Returns tt; final := tick_clock w; emitted := [] |}.
Proof.
  intro Hl. unfold on_edge, try_except.
  rewrite (callback_unconstructed b w Hl). reflexivity.
Qed.

(** X2.  [setup_gpio] registers the callbacks before [__init__] assigns the
    attributes they read.  On a controller whose [last_press_time] is not
    assigned, a callback raises [AttributeError] without printing or
    sending, and no sequence of edges makes the script do anything
    outside or changes the object. *)
Theorem edges_before_construction (w : world) (bs : list button)
    (channel : Z) :
  last_press_time (self w) = None ->
  out (button_1_callback channel w) = Raises AttributeError /\
  out (button_2_callback channel w) = Raises AttributeError /\
  emitted (edges bs w) = [] /\
  accepted bs w = [] /\
  self (final (edges bs w)) = self w.
Proof.
  intro Hl. split; [| split].
  - change (button_1_callback channel) with (callback Button1).
    rewrite (callback_unconstructed _ w Hl). reflexivity.
  - change (button_2_callback channel) with (callback Button2).
    rewrite (callback_unconstructed _ w Hl). reflexivity.
  - revert w Hl. induction bs as [| b bs IH]; intros w Hl.
    + repeat split.
    + cbn [edges accepted]. unfold bind.
      rewrite (on_edge_unconstructed b w Hl).
      cbn [out final emitted app existsb].
      destruct (IH (tick_clock w) Hl) as (He & Ha & Hs).
      rewrite He, Ha, Hs. repeat split.
Qed.

Lemma edges_before_construction_witness :
  let w := final (__init__ (scripted [1000; 2000]%Q [] [] pin_18_fails)) in
  out (button_1_callback 18 w) = Raises AttributeError /\
  out (button_2_callback 18 w) = Raises AttributeError /\
  emitted (edges [Button1; Button2] w) = [] /\
  accepted [Button1; Button2] w = [] /\
  self (final (edges [Button1; Button2] w)) = self w.
Proof.
  intro w.
  apply (edges_before_construction w [Button1; Button2] 18).
  vm_compute. reflexivity.
Defined.

(** ** Exceptions the emission does not handle *)

(** X3.  An exception of [requests.post] that is not a [RequestException]
    is not handled anywhere in the callback: it leaves
    [button_1_callback] / [button_2_callback] after the pressed line and
    the one request, without a result line, and [last_press_time] already
    holds the time of the edge. *)
Theorem callback_raises_unhandled (w : world) (last : Q) (e : exn)
    (channel : Z) :
  constructed w last ->
  (3 # 10 < now w - last)%Q ->
  network w (requests w) = Failure e ->
  is_RequestException e = false ->
  (out (button_1_callback channel w) = Raises e /\
   emitted (button_1_callback channel w) =
     [Print "Button 1 pressed - Choose Variant 1";
      press_post 1 (stamped w)] /\
   last_press_time (self (final (button_1_callback channel w)))
     = Some (now w)) /\
  (out (button_2_callback channel w) = Raises e /\
   emitted (button_2_callback channel w) =
     [Print "Button 2 pressed - Choose Variant 2";
      press_post 2 (stamped w)] /\
   last_press_time (self (final (button_2_callback channel w)))
     = Some (now w)).
Proof.
  intros Hc Hlt Hnet He.
  assert (Hnet' : network (stamped w) (requests (stamped w)) = Failure e)
    by exact Hnet.
  split.
  - change (button_1_callback channel) with (callback Button1).
    rewrite (callback_accepted Button1 w last Hc Hlt).
    rewrite send_button_press_cases, Hnet'.
    destruct e; [discriminate | |]; repeat split.
  - change (button_2_callback channel) with (callback Button2).
    rewrite (callback_accepted Button2 w last Hc Hlt).
    rewrite send_button_press_cases, Hnet'.
    destruct e; [discriminate | |]; repeat split.
Qed.

Lemma callback_raises_unhandled_witness :
  let w := final (__init__ (scripted [1000; 1000.01]%Q
                    [Failure (OtherException "MemoryError")] [] no_fault)) in
  (out (button_1_callback 18 w) = Raises (OtherException "MemoryError") /\
   emitted (button_1_callback 18 w) =
     [Print "Button 1 pressed - Choose Variant 1";
      press_post 1 (stamped w)] /\
   last_press_time (self (final (button_1_callback 18 w)))
     = Some (now w)) /\
  (out (button_2_callback 18 w) = Raises (OtherException "MemoryError") /\
   emitted (button_2_callback 18 w) =
     [Print "Button 2 pressed - Choose Variant 2";
      press_post 2 (stamped w)] /\
   last_press_time (self (final (button_2_callback 18 w)))
     = Some (now w)).
Proof.
  intro w.
  apply (callback_raises_unhandled w 0%Q (OtherException "MemoryError") 18).
  - split; reflexivity.
  - vm_compute. reflexivity.
  - reflexivity.
  - reflexivity.
Defined.

(** ** The filter and the server *)

Lemma constructed_with_network (net : nat -> http_reply) (w : world)
    (last : Q) :
  constructed w last -> constructed (with_network net w) last.
Proof. intro H. exact H. Qed.

(** X4.  What the server answers never reaches the filter: with the same
    clock, the same edges are accepted, with the same edge times and
    timestamps, and the object ends in the same state, whatever the
    replies to the POSTs are (success, error status, any exception). *)
Theorem filter_ignores_replies (bs : list button) :
  forall (w : world) (last : Q) (net : nat -> http_reply),
    constructed w last ->
    accepted bs (with_network net w) = accepted bs w /\
    self (final (edges bs (with_network net w))) = self (final (edges bs w)).
Proof.
  induction bs as [| b bs IH]; intros w last net Hc.
  - split; reflexivity.
  - pose proof (constructed_with_network net w last Hc) as Hc'.
    cbn [edges accepted]. unfold bind.
    destruct (Qlt_le_dec (3 # 10) (now w - last)) as [Hlt | Hle].
    + destruct (on_edge_accepted b w last Hc Hlt) as (Ho & Hf & Hp & _).
      destruct (on_edge_accepted b (with_network net w) last Hc' Hlt)
        as (Ho' & Hf' & Hp' & _).
      rewrite (posts_existsb _ _ Hp), (posts_existsb _ _ Hp').
      rewrite Ho, Ho', Hf, Hf'. cbn [out final emitted].
      change (tick_network (tick_clock (stamped (with_network net w))))
        with (with_network net (tick_network (tick_clock (stamped w)))).
      destruct (IH _ _ net (constructed_stamped w last Hc)) as [Ha Hs].
      rewrite Ha, Hs. split; reflexivity.
    + rewrite (on_edge_suppressed b w last Hc Hle).
      rewrite (on_edge_suppressed b (with_network net w) last Hc' Hle).
      cbn [out final emitted app].
      change (tick_clock (with_network net w))
        with (with_network net (tick_clock w)).
      exact (IH _ _ net (constructed_tick_clock w last Hc)).
Qed.

Lemma filter_ignores_replies_witness :
  let w := final (__init__ spaced_world) in
  let net := fun _ : nat => Failure (OtherException "MemoryError") in
  accepted [Button1; Button2] (with_network net w)
    = accepted [Button1; Button2] w /\
  self (final (edges [Button1; Button2] (with_network net w)))
    = self (final (edges [Button1; Button2] w)).
Proof.
  intros w net.
  apply (filter_ignores_replies [Button1; Button2] w 0%Q net).
  split; reflexivity.
Defined.

(** ** Presses that are never seen *)

(** X5.  While the clock does not read more than 0.3 s past
    [last_press_time] (it was set back, or stands still), every edge on
    either channel is dropped: a sequence of edges of any length prints
    nothing, sends nothing and leaves the object as it is. *)
Theorem no_press_until_clock_passes (bs : list button) :
  forall (w : world) (last : Q),
    constructed w last ->
    (forall n, (clock_reads w <= n)%nat -> (clock w n - last <= 3 # 10)%Q) ->
    emitted (edges bs w) = [] /\
    accepted bs w = [] /\
    self (final (edges bs w)) = self w.
Proof.
  induction bs as [| b bs IH]; intros w last Hc Hclock.
  - repeat split.
  - assert (Hle : (now w - last <= 3 # 10)%Q)
      by (apply Hclock; apply Nat.le_refl).
    cbn [edges accepted]. unfold bind.
    rewrite (on_edge_suppressed b w last Hc Hle).
    cbn [out final emitted app existsb].
    destruct (IH (tick_clock w) last (constructed_tick_clock w last Hc))
      as (He & Ha & Hs).
    + intros n Hn. apply Hclock. cbn [tick_clock clock_reads] in Hn. lia.
    + rewrite He, Ha, Hs. repeat split.
Qed.

Lemma no_press_until_clock_passes_witness :
  let w := final (__init__ epoch_world) in
  emitted (edges [Button1; Button2; Button1] w) = [] /\
  accepted [Button1; Button2; Button1] w = [] /\
  self (final (edges [Button1; Button2; Button1] w)) = self w.
Proof.
  intro w.
  apply (no_press_until_clock_passes [Button1; Button2; Button1] w 0%Q).
  - split; reflexivity.
  - intros [| n] _; [vm_compute; discriminate |].
    destruct n; vm_compute; discriminate.
Defined.

(** ** What edges do and do not do *)

Lemma on_edge_accepted_events (b : button) (w : world) (last : Q) :
  constructed w last ->
  (3 # 10 < now w - last)%Q ->
  forallb print_or_post (emitted (on_edge b w)) = true.
Proof.
  intros Hc Hlt. unfold on_edge, try_except.
  rewrite (callback_accepted b w last Hc Hlt).
  rewrite send_button_press_cases.
  destruct (network (stamped w) (requests (stamped w))) as [c | [d | | m]];
    reflexivity.
Qed.

Lemma accepted_length (bs : list button) :
  forall w, (List.length (accepted bs w) <= List.length bs)%nat.
Proof.
  induction bs as [| b bs IH]; intro w; [apply Nat.le_refl |].
  cbn [accepted]. rewrite length_app.
  specialize (IH (final (on_edge b w))).
  destruct (existsb is_post (emitted (on_edge b w))); cbn [List.length];
    cbn [List.length] in *; lia.
Qed.

Lemma edges_footprint (bs : list button) :
  forall (w : world) (last : Q),
    constructed w last ->
    let r := edges bs w in
    forallb print_or_post (emitted r) = true /\
    button_pressed (self (final r)) = button_pressed (self w) /\
    sleeps (final r) = sleeps w /\
    (clock_reads w <= clock_reads (final r))%nat.
Proof.
  induction bs as [| b bs IH]; intros w last Hc r; subst r.
  - repeat split. apply Nat.le_refl.
  - cbn [edges]. unfold bind.
    destruct (Qlt_le_dec (3 # 10) (now w - last)) as [Hlt | Hle].
    + destruct (on_edge_accepted b w last Hc Hlt) as (Ho & Hf & _).
      pose proof (on_edge_accepted_events b w last Hc Hlt) as Hev.
      rewrite Ho, Hf. cbn [out final emitted].
      destruct (IH _ _ (constructed_stamped w last Hc))
        as (He' & Hb' & Hs' & Hk').
      rewrite forallb_app, Hev, He', Hb', Hs'.
      cbn [tick_network tick_clock stamped with_self clock_reads] in Hk'.
      repeat split. lia.
    + rewrite (on_edge_suppressed b w last Hc Hle).
      cbn [out final emitted app].
      destruct (IH _ _ (constructed_tick_clock w last Hc))
        as (He' & Hb' & Hs' & Hk').
      cbn [tick_clock clock_reads] in Hk'.
      repeat split; try assumption. lia.
Qed.

(** X6.  A sequence of edge callbacks only prints and POSTs (no GET, no
    sleep, no GPIO call), makes exactly one POST per accepted edge, and so
    at most as many POSTs as there are edges. *)
Theorem edges_only_print_and_post (w : world) (last : Q)
    (bs : list button) :
  constructed w last ->
  forallb print_or_post (emitted (edges bs w)) = true /\
  List.length (posts (emitted (edges bs w))) = List.length (accepted bs w) /\
  (List.length (posts (emitted (edges bs w))) <= List.length bs)%nat.
Proof.
  intro Hc.
  destruct (edges_footprint bs w last Hc) as (Hev & _).
  destruct (edges_invariant bs w last Hc) as (_ & _ & _ & _ & _ & Hlen).
  split; [exact Hev |]. split; [exact Hlen |].
  rewrite Hlen. apply accepted_length.
Qed.

Lemma edges_only_print_and_post_witness :
  let w := final (__init__ boundary_world) in
  forallb print_or_post (emitted (edges [Button1; Button2] w)) = true /\
  List.length (posts (emitted (edges [Button1; Button2] w)))
    = List.length (accepted [Button1; Button2] w) /\
  (List.length (posts (emitted (edges [Button1; Button2] w))) <= 2)%nat.
Proof.
  intro w.
  apply (edges_only_print_and_post w 0%Q [Button1; Button2]).
  split; reflexivity.
Defined.

(** X7.  Only [last_press_time] ever changes: after construction and any
    sequence of edges, [button_pressed] is still [False] and
    [debounce_time] still 0.3, and [last_press_time] holds a number. *)
Theorem only_last_press_time_changes (w0 : world) (bs : list button) :
  out (__init__ w0) = Returns tt ->
  let w := final (edges bs (final (__init__ w0))) in
  button_pressed (self w) = Some false /\
  debounce_time (self w) = Some (3 # 10) /\
  exists t, last_press_time (self w) = Some t.
Proof.
  intros Hinit w.
  destruct (init_constructed w0 Hinit) as [Hc _].
  destruct (edges_footprint bs _ _ Hc) as (_ & Hb & _).
  destruct (edges_invariant bs _ _ Hc) as (_ & [Hl Hd] & _).
  fold w in Hb, Hl, Hd.
  split; [| split; [exact Hd | eexists; exact Hl]].
  rewrite Hb, (init_returns w0 Hinit). reflexivity.
Qed.

Lemma only_last_press_time_changes_witness :
  let w := final (edges [Button1; Button2; Button2]
                    (final (__init__ spaced_world))) in
  button_pressed (self w) = Some false /\
  debounce_time (self w) = Some (3 # 10) /\
  exists t, last_press_time (self w) = Some t.
Proof.
  apply (only_last_press_time_changes spaced_world
           [Button1; Button2; Button2]).
  vm_compute. reflexivity.
Defined.

(** ** How often presses are sent *)

Lemma inject_succ (n : nat) :
  (inject_Z (Z.of_nat (S n)) == inject_Z (Z.of_nat n) + 1)%Q.
Proof.
  rewrite Nat2Z.inj_succ. unfold Z.succ. rewrite inject_Z_plus. reflexivity.
Qed.

Lemma chain_rate (l : list press) :
  forall (last : Q) (j : nat) (q : press),
    chain last l -> nth_error l j = Some q ->
    ((3 # 10) * inject_Z (Z.of_nat (S j)) < edge_time q - last)%Q.
Proof.
  induction l as [| p l IH]; intros last [| j] q Hch Hq; cbn in Hq;
    try discriminate; destruct Hch as [Hp Hch].
  - injection Hq as <-. change (inject_Z (Z.of_nat 1)) with 1%Q. lra.
  - specialize (IH _ _ _ Hch Hq).
    pose proof (inject_succ (S j)) as Hs. lra.
Qed.

Lemma chain_rate_pairwise (l : list press) :
  forall (last : Q) (i j : nat) (p q : press),
    chain last l -> (i < j)%nat ->
    nth_error l i = Some p -> nth_error l j = Some q ->
    ((3 # 10) * inject_Z (Z.of_nat (j - i)) < edge_time q - edge_time p)%Q.
Proof.
  induction l as [| a l IH]; intros last i j p q Hch Hij Hp Hq.
  - destruct i; discriminate.
  - destruct Hch as [_ Hch]. destruct j as [| j]; [lia |].
    destruct i as [| i]; cbn in Hp, Hq.
    + injection Hp as <-. rewrite Nat.sub_0_r.
      exact (chain_rate l _ _ _ Hch Hq).
    + apply (IH _ i j p q Hch); [lia | assumption | assumption].
Qed.

(** X8.  The filter bounds the rate of presses: between the i-th and the
    j-th press accepted in a run (i < j) more than (j - i) * 0.3 s pass,
    so no window of T seconds holds more than T / 0.3 + 1 sent presses. *)
Theorem press_rate_bounded (w0 : world) (bs : list button) (i j : nat)
    (p q : press) :
  out (__init__ w0) = Returns tt ->
  (i < j)%nat ->
  nth_error (accepted bs (final (__init__ w0))) i = Some p ->
  nth_error (accepted bs (final (__init__ w0))) j = Some q ->
  ((3 # 10) * inject_Z (Z.of_nat (j - i)) < edge_time q - edge_time p)%Q.
Proof.
  intros Hinit Hij Hp Hq.
  destruct (init_constructed w0 Hinit) as [Hc _].
  destruct (edges_invariant bs _ _ Hc) as (_ & _ & _ & Hch & _).
  exact (chain_rate_pairwise _ _ i j p q Hch Hij Hp Hq).
Qed.

Lemma press_rate_bounded_witness :
  ((3 # 10) * inject_Z (Z.of_nat (2 - 0)) < 1000.8 - 1000)%Q.
Proof.
  apply (press_rate_bounded steady_world [Button1; Button1; Button1] 0 2
           {| which := Button1; edge_time := 1000; timestamp := 1000.01 |}
           {| which := Button1; edge_time := 1000.8; timestamp := 1000.81 |}).
  - vm_compute. reflexivity.
  - lia.
  - vm_compute. reflexivity.
  - vm_compute. reflexivity.
Defined.

(** ** Timestamps under a clock that does not go backwards *)

Lemma accepted_ordered (bs : list button) :
  forall (w : world) (last lo : Q),
    constructed w last ->
    monotone_clock w ->
    (lo <= now w)%Q ->
    ordered lo (accepted bs w).
Proof.
  induction bs as [| b bs IH]; intros w last lo Hc Hmono Hlo; [exact I |].
  cbn [accepted].
  destruct (Qlt_le_dec (3 # 10) (now w - last)) as [Hlt | Hle].
  - destruct (on_edge_accepted b w last Hc Hlt) as (_ & Hf & Hp & _).
    rewrite (posts_existsb _ _ Hp), Hf. cbn [app ordered edge_time timestamp].
    split; [exact Hlo |]. split; [apply Hmono |].
    apply (IH _ (now w) _ (constructed_stamped w last Hc)).
    + exact Hmono.
    + apply (Hmono (S (clock_reads w))).
  - rewrite (on_edge_suppressed b w last Hc Hle). cbn [emitted existsb app final].
    apply (IH _ last _ (constructed_tick_clock w last Hc)).
    + exact Hmono.
    + apply Qle_trans with (now w); [exact Hlo | apply Hmono].
Qed.

Lemma ordered_lower (l : list press) :
  forall (lo : Q) (j : nat) (q : press),
    ordered lo l -> nth_error l j = Some q ->
    (lo <= edge_time q)%Q /\ (edge_time q <= timestamp q)%Q.
Proof.
  induction l as [| p l IH]; intros lo [| j] q Ho Hq; cbn in Hq;
    try discriminate; destruct Ho as (H1 & H2 & Ho).
  - injection Hq as <-. split; assumption.
  - destruct (IH _ _ _ Ho Hq) as [H3 H4]. split; [lra | exact H4].
Qed.

Lemma ordered_pairwise (l : list press) :
  forall (lo : Q) (i j : nat) (p q : press),
    ordered lo l -> (i < j)%nat ->
    nth_error l i = Some p -> nth_error l j = Some q ->
    (edge_time p <= timestamp p)%Q /\ (timestamp p <= edge_time q)%Q /\
    (edge_time q <= timestamp q)%Q.
Proof.
  induction l as [| a l IH]; intros lo i j p q Ho Hij Hp Hq.
  - destruct i; discriminate.
  - destruct Ho as (H1 & H2 & Ho). destruct j as [| j]; [lia |].
    destruct i as [| i]; cbn in Hp, Hq.
    + injection Hp as <-.
      destruct (ordered_lower l _ _ _ Ho Hq) as [H3 H4].
      repeat split; assumption.
    + apply (IH _ i j p q Ho); [lia | assumption | assumption].
Qed.

(** X9.  If the clock never goes backwards, the timestamp of each press
    sent lies between the time of its own edge and the time of the next
    accepted edge: timestamps arrive at the server in non-decreasing
    order, none earlier than its edge. *)
Theorem timestamps_between_edges (w0 : world) (bs : list button)
    (i j : nat) (p q : press) :
  out (__init__ w0) = Returns tt ->
  monotone_clock w0 ->
  (i < j)%nat ->
  nth_error (accepted bs (final (__init__ w0))) i = Some p ->
  nth_error (accepted bs (final (__init__ w0))) j = Some q ->
  (edge_time p <= timestamp p)%Q /\ (timestamp p <= edge_time q)%Q /\
  (edge_time q <= timestamp q)%Q /\ (timestamp p <= timestamp q)%Q.
Proof.
  intros Hinit Hmono Hij Hp Hq.
  destruct (init_constructed w0 Hinit) as [Hc _].
  assert (Hmono' : monotone_clock (final (__init__ w0))).
  { rewrite (init_returns w0 Hinit). exact Hmono. }
  pose proof (accepted_ordered bs _ 0 _ Hc Hmono' (Qle_refl _)) as Ho.
  destruct (ordered_pairwise _ _ i j p q Ho Hij Hp Hq) as (H1 & H2 & H3).
  repeat split; try assumption. lra.
Qed.

Lemma timestamps_between_edges_witness :
  (1 <= 2)%Q /\ (2 <= 3)%Q /\ (3 <= 4)%Q /\ (2 <= 4)%Q.
Proof.
  apply (timestamps_between_edges ticking_world
           [Button1; Button2; Button1] 0 1
           {| which := Button2; edge_time := 1; timestamp := 2 |}
           {| which := Button1; edge_time := 3; timestamp := 4 |}).
  - vm_compute. reflexivity.
  - intro n. unfold Qle. cbn. lia.
  - lia.
  - vm_compute. reflexivity.
  - vm_compute. reflexivity.
Defined.

(** ** More on the main loop *)

Lemma idle_loop_frame (fuel : nat) :
  forall w,
    let r := idle_loop fuel w in
    self (final r) = self w /\
    clock_reads (final r) = clock_reads w /\
    requests (final r) = requests w /\
    gpio_fault (final r) = gpio_fault w.
Proof.
  induction fuel as [| fuel IH]; intros w r; subst r.
  - repeat split.
  - rewrite idle_loop_S. destruct (interrupt w (sleeps w)).
    + repeat split.
    + cbv zeta. cbn [final]. exact (IH (tick_sleep w)).
Qed.

Lemma idle_loop_quiet (fuel : nat) :
  forall w,
    (forall i, (i < fuel)%nat -> interrupt w (sleeps w + i) = None) ->
    out (idle_loop fuel w) = Running /\
    emitted (idle_loop fuel w) = repeat nap fuel.
Proof.
  induction fuel as [| fuel IH]; intros w Hquiet.
  - split; reflexivity.
  - rewrite idle_loop_S.
    assert (H0 : interrupt w (sleeps w) = None).
    { rewrite <- (Nat.add_0_r (sleeps w)). apply Hquiet. lia. }
    rewrite H0. cbv zeta. cbn [out emitted].
    destruct (IH (tick_sleep w)) as [Ho He].
    + intros i Hi. cbn [tick_sleep interrupt sleeps].
      replace (S (sleeps w) + i)%nat with (sleeps w + S i)%nat by lia.
      apply Hquiet. lia.
    + rewrite Ho, He. split; reflexivity.
Qed.

Lemma check_connection_no_cleanup (w : world) :
  filter is_cleanup (emitted (check_connection w)) = [].
Proof.
  rewrite check_connection_cases. cbn [emitted].
  destruct (network w (requests w)) as [c | e]; reflexivity.
Qed.

(** X10.  An exception in the idle loop other than [KeyboardInterrupt] is
    not caught by [run], but the [finally] block still runs:
    [GPIO.cleanup] is called once, as the last thing, nothing is printed
    about shutting down, and the exception leaves [run]. *)
Theorem run_propagates_other_exceptions (w : world) (k fuel : nat)
    (e : exn) :
  (forall i, (i < k)%nat -> interrupt w (sleeps w + i) = None) ->
  interrupt w (sleeps w + k) = Some e ->
  is_KeyboardInterrupt e = false ->
  gpio_fault w Cleanup = None ->
  (k < fuel)%nat ->
  let r := run fuel w in
  out r = Raises e /\
  emitted r =
    (banner ++ emitted (check_connection w) ++ repeat nap (S k) ++
     [Gpio Cleanup])%list /\
  filter is_cleanup (emitted r) = [Gpio Cleanup].
Proof.
  intros Hbefore Hcut Hnot Hclean Hfuel r. subst r.
  destruct (idle_loop_interrupted k fuel (tick_network w) e
              Hbefore Hcut Hfuel) as (Ho & He & Hg & _).
  rewrite run_cases. cbv zeta. rewrite Ho, He, Hg, Hnot.
  cbn [out emitted gpio_fault tick_network app].
  rewrite Hclean. split; [reflexivity |]. split; [reflexivity |].
  rewrite !filter_app, check_connection_no_cleanup,
    (filter_repeat_nap is_cleanup (S k) eq_refl).
  reflexivity.
Qed.

Lemma run_propagates_other_exceptions_witness :
  let w := scripted [] [] [None; Some (OtherException "OSError")] no_fault in
  let r := run 5 w in
  out r = Raises (OtherException "OSError") /\
  emitted r =
    (banner ++ emitted (check_connection w) ++ repeat nap 2 ++
     [Gpio Cleanup])%list /\
  filter is_cleanup (emitted r) = [Gpio Cleanup].
Proof.
  intros w r.
  apply (run_propagates_other_exceptions w 1 5 (OtherException "OSError")).
  - intros [| i] Hi; [reflexivity | lia].
  - reflexivity.
  - reflexivity.
  - reflexivity.
  - lia.
Defined.

(** X11.  If [GPIO.cleanup] itself fails in the [finally] block, its
    exception is what leaves [run], whichever exception ended the loop:
    after a [KeyboardInterrupt] too, [run] then does not return
    normally. *)
Theorem run_raises_cleanup_failure (w : world) (k fuel : nat)
    (e e' : exn) :
  (forall i, (i < k)%nat -> interrupt w (sleeps w + i) = None) ->
  interrupt w (sleeps w + k) = Some e ->
  gpio_fault w Cleanup = Some e' ->
  (k < fuel)%nat ->
  let r := run fuel w in
  out r = Raises e' /\
  filter is_cleanup (emitted r) = [Gpio Cleanup].
Proof.
  intros Hbefore Hcut Hclean Hfuel r. subst r.
  destruct (idle_loop_interrupted k fuel (tick_network w) e
              Hbefore Hcut Hfuel) as (Ho & He & Hg & _).
  rewrite run_cases. cbv zeta. rewrite Ho, He, Hg.
  cbn [out emitted gpio_fault tick_network].
  rewrite Hclean. split; [reflexivity |].
  rewrite !filter_app, check_connection_no_cleanup,
    (filter_repeat_nap is_cleanup (S k) eq_refl).
  destruct (is_KeyboardInterrupt e); reflexivity.
Qed.

Lemma run_raises_cleanup_failure_witness :
  let w := scripted [] [] [Some KeyboardInterrupt] cleanup_fails in
  let r := run 5 w in
  out r = Raises (OtherException "RuntimeError") /\
  filter is_cleanup (emitted r) = [Gpio Cleanup].
Proof.
  intros w r.
  apply (run_raises_cleanup_failure w 0 5 KeyboardInterrupt).
  - intros i Hi. lia.
  - reflexivity.
  - reflexivity.
  - lia.
Defined.

(** X12.  [run] does not end by itself: as long as no sleep is cut short,
    it is still in the idle loop, having slept once per iteration, and
    [GPIO.cleanup] has not been called. *)
Theorem run_keeps_running (w : world) (fuel : nat) :
  (forall i, (i < fuel)%nat -> interrupt w (sleeps w + i) = None) ->
  let r := run fuel w in
  out r = Running /\
  emitted r =
    (banner ++ emitted (check_connection w) ++ repeat nap fuel)%list /\
  filter is_cleanup (emitted r) = [].
Proof.
  intros Hquiet r. subst r.
  destruct (idle_loop_quiet fuel (tick_network w) Hquiet) as [Ho He].
  rewrite run_cases. cbv zeta. rewrite Ho, He. cbn [out emitted].
  split; [reflexivity |]. split; [reflexivity |].
  rewrite !filter_app, check_connection_no_cleanup,
    (filter_repeat_nap is_cleanup fuel eq_refl).
  reflexivity.
Qed.

Lemma run_keeps_running_witness :
  let w := scripted [] [Failure (RequestException "refused")] [] no_fault in
  let r := run 7 w in
  out r = Running /\
  emitted r =
    (banner ++ emitted (check_connection w) ++ repeat nap 7)%list /\
  filter is_cleanup (emitted r) = [].
Proof.
  intros w r.
  apply (run_keeps_running w 7).
  intros i Hi. cbn [scripted interrupt sleeps Nat.add].
  destruct i as [| [| [| [| [| [| [| i]]]]]]]; reflexivity || lia.
Defined.

(** X13.  The main thread never touches the debounce state: however [run]
    ends or goes on, the attributes of the controller are as they were,
    the clock has not been read, and exactly one HTTP request (the health
    check) has been made. *)
Theorem run_leaves_controller_alone (w : world) (fuel : nat) :
  self (final (run fuel w)) = self w /\
  clock_reads (final (run fuel w)) = clock_reads w /\
  requests (final (run fuel w)) = S (requests w).
Proof.
  destruct (idle_loop_frame fuel (tick_network w)) as (Hs & Hk & Hr & _).
  assert (Hfinal : final (run fuel w)
                   = final (idle_loop fuel (tick_network w))).
  { rewrite run_cases. cbv zeta.
    destruct (out (idle_loop fuel (tick_network w))); reflexivity. }
  rewrite Hfinal, Hs, Hk, Hr. repeat split.
Qed.

(** ** A whole session *)






(** ** Two presses close together, on any channels *)

(** X15.  The filter is one for both channels and takes the first press:
    with no accepted press in the 0.3 s before it, a press on any button
    followed at most 0.3 s later by a press on any button (the same or the
    other) gives exactly one outbound event, carrying the first button. *)
Theorem first_of_two_close_presses_wins (w : world) (last : Q)
    (b1 b2 : button) :
  constructed w last ->
  (3 # 10 < now w - last)%Q ->
  (now (final (on_edge b1 w)) - now w <= 3 # 10)%Q ->
  press_events (emitted (edges [b1; b2] w))
    = [(number b1, clock w (S (clock_reads w)))] /\
  posts (emitted (edges [b1; b2] w)) = [press_post (number b1) (stamped w)] /\
  last_press_time (self (final (edges [b1; b2] w))) = Some (now w).
Proof.
  intros Hc Hlt Hnear.
  destruct (on_edge_accepted b1 w last Hc Hlt) as (Ho & Hf & Hp & He).
  assert (Hc1 : constructed (final (on_edge b1 w)) (now w)).
  { rewrite Hf. exact (constructed_stamped w last Hc). }
  pose proof (on_edge_suppressed b2 _ (now w) Hc1 Hnear) as H2.
  cbn [edges]. unfold bind.
  rewrite Ho. cbv zeta. cbn [out final emitted].
  rewrite H2. cbn [out final emitted ret app].
  rewrite !app_nil_r. unfold press_events in *.
  rewrite Hp, He, Hf. repeat split.
Qed.

Lemma first_of_two_close_presses_wins_witness :
  let w := final (__init__ boundary_world) in
  press_events (emitted (edges [Button2; Button1] w))
    = [(2, 1000.01%Q)] /\
  posts (emitted (edges [Button2; Button1] w))
    = [press_post 2 (stamped w)] /\
  last_press_time (self (final (edges [Button2; Button1] w)))
    = Some 1000%Q.
Proof.
  intro w.
  apply (first_of_two_close_presses_wins w 0%Q Button2 Button1).
  - split; reflexivity.
  - vm_compute. reflexivity.
  - vm_compute. discriminate.
Defined.
